(** * Tutorial notebooks and CI configuration of gammapy

    The repository's own code is two Jupyter notebooks
    ([tutorials/analysis_2.ipynb], [tutorials/sed_fitting.ipynb]) and the
    travis-ci build matrix.  The notebooks are Python scripts whose every
    step acts on objects of the library; they are embedded here as

    - the syntax tree of their code cells ([Py], [Notebooks]),
    - static analyses of that tree ([Static]),
    - an interpreter of the tree over an arbitrary library ([Sem]), which
      logs every request the script makes to the Python runtime,
    - state-passing models of the cells that compute on data
      ([SedFitting], [Save]),
    - the build matrix as records ([Travis]). *)

From Stdlib Require Import ZArith SpecFloat.
From stdpp Require Import gmap strings list.

Open Scope string_scope.
Open Scope list_scope.
Set Warnings "-register-all".

(* ===================================================================== *)
(** ** Syntax of the Python fragment the notebooks are written in *)
(* ===================================================================== *)

Module Py.

Inductive binop := Add | Sub | Mult | Div.

(** Expressions, named after the nodes of Python's [ast] module.  A keyword
    argument [k=e] is the node [Kw k e] inside the argument list of its
    call; an f-string is [FStr] over [Str] chunks and [Fmt e spec] holes; a
    dictionary display [{k1: v1, k2: v2}] is [DictE [k1; v1; k2; v2]]. *)
Inductive expr :=
| Name (x : string)
| Num (literal : string)
| Str (s : string)
| BoolC (b : bool)
| Attr (e : expr) (a : string)
| Call (f : expr) (args : list expr)
| Kw (k : string) (e : expr)
| Sub_ (e : expr) (i : expr)
| BinOp (l : expr) (op : binop) (r : expr)
| Neg (e : expr)
| ListE (es : list expr)
| TupleE (es : list expr)
| DictE (items : list expr)
| FStr (parts : list expr)
| Fmt (e : expr) (spec : string).

(** Statements.  [Try], [Assert], [Raise] and [If] are part of the language
    although no cell of the two notebooks uses them: their absence is a
    fact about the notebooks, not about this type. *)
Inductive stmt :=
| Magic (line : string)
| Import (module : string) (asname : string)
| ImportFrom (module : string) (name : string) (asname : string)
| ExprS (e : expr)
| Assign (target : expr) (e : expr)
| For (x : string) (iter : expr) (body : list stmt)
| If (c : expr) (th : list stmt) (el : list stmt)
| Try (body : list stmt) (handler : list stmt)
| Assert (c : expr)
| Raise (e : expr).

Inductive cell :=
| Markdown
| Code (source : list stmt).

Definition notebook := list cell.

Definition code_of (c : cell) : list stmt :=
  match c with Markdown => [] | Code src => src end.

(** The notebook as one script: its code cells, top to bottom. *)
Definition script (nb : notebook) : list stmt := flat_map code_of nb.

(** [from m import a, b, c] *)
Definition from_import (m : string) (names : list string) : list stmt :=
  map (fun n => ImportFrom m n n) names.

End Py.

Import Py.

Declare Scope py_scope.
Delimit Scope py_scope with py.
Notation "e ;. a" := (Attr e a) (at level 8, left associativity, format "e ;. a") : py_scope.
Notation "k ;= e" := (Kw k e) (at level 60, no associativity) : py_scope.
Notation "x <~ e" := (Assign x e) (at level 70, no associativity) : py_scope.
Open Scope py_scope.

(* ===================================================================== *)
(** ** The two notebooks *)
(* ===================================================================== *)

Module Notebooks.

(** *** tutorials/analysis_2.ipynb *)

(** The body of the data reduction loop, [for obs in observations:]. *)
Definition reduction_body : list stmt :=
  [ Name "cutout" <~
      Call (Name "stacked");."cutout"
        [ (Name "obs");."pointing_radec";
          "width" ;= BinOp (Num "2") Mult (Name "offset_max") ];
    Name "dataset" <~ Call (Name "maker");."run" [Name "cutout"; Name "obs"];
    Name "dataset" <~ Call (Name "maker_fov");."run" [Name "dataset"];
    ExprS (Call (Name "print")
      [ FStr [ Str "Background norm obs ";
               Fmt (Name "obs");."obs_id" "";
               Str ": ";
               Fmt (Name "dataset");."background_model";."norm";."value" ".2f" ] ]);
    Name "dataset" <~
      Call (Name "maker_safe_mask");."run" [Name "dataset"; Name "obs"];
    ExprS (Call (Name "stacked");."stack" [Name "dataset"]) ].

Definition reduction_loop : stmt :=
  For "obs" (Name "observations") reduction_body.

Definition save_mkdir : list stmt :=
  [ Name "path" <~ Call (Name "Path") [Str "analysis_2"];
    ExprS (Call (Name "path");."mkdir" ["exist_ok" ;= BoolC true]) ].

Definition save_write : list stmt :=
  [ Name "filename" <~ BinOp (Name "path") Div (Str "crab-stacked-dataset.fits.gz");
    ExprS (Call (Name "stacked");."write" [Name "filename"; "overwrite" ;= BoolC true]) ].

Definition stat_profile_plot : stmt :=
  ExprS (Call (Name "plt");."plot"
    [ Sub_ (Name "profile") (Str "values");
      BinOp (Sub_ (Name "profile") (Str "stat")) Sub (Name "total_stat") ]).

Definition analysis_2 : notebook :=
  [ Markdown;
    Code [ Magic "%matplotlib inline";
           Import "matplotlib.pyplot" "plt" ];
    Code ( from_import "pathlib" ["Path"] ++
           [ Import "numpy" "np";
             ImportFrom "astropy" "units" "u" ] ++
           from_import "astropy.coordinates" ["SkyCoord"] ++
           from_import "regions" ["CircleSkyRegion"] );
    Code ( from_import "gammapy.data" ["DataStore"] ++
           from_import "gammapy.maps" ["WcsGeom"; "MapAxis"; "Map"] ++
           from_import "gammapy.cube"
             ["MapDatasetMaker"; "MapDataset"; "SafeMaskMaker"; "FoVBackgroundMaker"] ++
           from_import "gammapy.modeling.models"
             ["SkyModel"; "PowerLawSpectralModel"; "PointSpatialModel"] ++
           from_import "gammapy.modeling" ["Fit"] ++
           from_import "gammapy.spectrum" ["FluxPointsEstimator"] );
    Markdown;
    Code [ Name "data_store" <~
             Call (Name "DataStore");."from_dir" [Str "$GAMMAPY_DATA/hess-dl3-dr1"] ];
    Markdown;
    Code [ Name "selection" <~
             Call (Name "dict")
               [ "type" ;= Str "sky_circle";
                 "frame" ;= Str "icrs";
                 "lon" ;= Str "83.633 deg";
                 "lat" ;= Str "22.014 deg";
                 "radius" ;= Str "5 deg" ];
           Name "selected_obs_table" <~
             Call (Name "data_store");."obs_table";."select_observations"
               [Name "selection"] ];
    Markdown;
    Code [ Name "observations" <~
             Call (Name "data_store");."get_observations"
               [Sub_ (Name "selected_obs_table") (Str "OBS_ID")] ];
    Markdown;
    Code [ Name "energy_axis" <~
             Call (Name "MapAxis");."from_energy_bounds"
               [Num "1.0"; Num "10.0"; Num "4"; "unit" ;= Str "TeV"];
           Name "geom" <~
             Call (Name "WcsGeom");."create"
               [ "skydir" ;= TupleE [Num "83.633"; Num "22.014"];
                 "binsz" ;= Num "0.02";
                 "width" ;= TupleE [Num "2"; Num "2"];
                 "frame" ;= Str "icrs";
                 "proj" ;= Str "CAR";
                 "axes" ;= ListE [Name "energy_axis"] ];
           Name "energy_axis_true" <~
             Call (Name "MapAxis");."from_energy_bounds"
               [Num "0.5"; Num "20"; Num "10"; "unit" ;= Str "TeV"] ];
    Markdown;
    Code [ Name "stacked" <~
             Call (Name "MapDataset");."create"
               [ "geom" ;= Name "geom";
                 "energy_axis_true" ;= Name "energy_axis_true";
                 "name" ;= Str "crab-stacked" ] ];
    Markdown;
    Code [ Name "offset_max" <~ BinOp (Num "2.5") Mult (Name "u");."deg";
           Name "maker" <~ Call (Name "MapDatasetMaker") [];
           Name "maker_safe_mask" <~
             Call (Name "SafeMaskMaker")
               [ "methods" ;= ListE [Str "offset-max"];
                 "offset_max" ;= Name "offset_max" ] ];
    Code [ Name "circle" <~
             Call (Name "CircleSkyRegion")
               [ "center" ;= Call (Name "SkyCoord") [Str "83.63 deg"; Str "22.14 deg"];
                 "radius" ;= BinOp (Num "0.2") Mult (Name "u");."deg" ];
           Name "data" <~
             Call (Name "geom");."region_mask"
               [ "regions" ;= ListE [Name "circle"]; "inside" ;= BoolC false ];
           Name "exclusion_mask" <~
             Call (Name "Map");."from_geom" ["geom" ;= Name "geom"; "data" ;= Name "data"];
           Name "maker_fov" <~
             Call (Name "FoVBackgroundMaker")
               [ "method" ;= Str "fit"; "exclusion_mask" ;= Name "exclusion_mask" ] ];
    Markdown;
    Code [ Magic "%%time"; reduction_loop ];
    Markdown;
    Code [ ExprS (Call
             (Call
               (Call (Name "stacked");."counts";."sum_over_axes" []);."smooth"
               [BinOp (Num "0.05") Mult (Name "u");."deg"]);."plot"
             [ "stretch" ;= Str "sqrt"; "add_cbar" ;= BoolC true ]) ];
    Markdown;
    Code save_mkdir;
    Markdown;
    Code save_write;
    Markdown;
    Code [ Name "target_position" <~
             Call (Name "SkyCoord")
               ["ra" ;= Num "83.63308"; "dec" ;= Num "22.01450"; "unit" ;= Str "deg"];
           Name "spatial_model" <~
             Call (Name "PointSpatialModel")
               [ "lon_0" ;= (Name "target_position");."ra";
                 "lat_0" ;= (Name "target_position");."dec";
                 "frame" ;= Str "icrs" ];
           Name "spectral_model" <~
             Call (Name "PowerLawSpectralModel")
               [ "index" ;= Num "2.702";
                 "amplitude" ;=
                   BinOp (Num "4.712e-11") Mult
                         (Call (Name "u");."Unit" [Str "1 / (cm2 s TeV)"]);
                 "reference" ;= BinOp (Num "1") Mult (Name "u");."TeV" ];
           Name "sky_model" <~
             Call (Name "SkyModel")
               [ "spatial_model" ;= Name "spatial_model";
                 "spectral_model" ;= Name "spectral_model";
                 "name" ;= Str "crab" ] ];
    Markdown;
    Code [ (Name "stacked");."models" <~ Name "sky_model" ];
    Markdown;
    Code [ Magic "%%time";
           Name "fit" <~ Call (Name "Fit") [ListE [Name "stacked"]];
           Name "result" <~
             Call (Name "fit");."run"
               ["optimize_opts" ;= DictE [Str "print_level"; Num "1"]] ];
    Markdown;
    Code [ ExprS (Call (Name "result");."parameters";."to_table" []) ];
    Markdown;
    Code [ ExprS (Call (Name "stacked");."plot_residuals"
             [ "method" ;= Str "diff/sqrt(model)";
               "vmin" ;= Neg (Num "0.5"); "vmax" ;= Num "0.5" ]) ];
    Markdown;
    Code [ Name "region" <~
             Call (Name "CircleSkyRegion")
               [ "center" ;= Call (Name "SkyCoord") [Str "83.63 deg"; Str "22.14 deg"];
                 "radius" ;= BinOp (Num "0.5") Mult (Name "u");."deg" ] ];
    Code [ ExprS (Call (Name "stacked");."plot_residuals"
             [ "region" ;= Name "region";
               "method" ;= Str "diff/sqrt(model)";
               "vmin" ;= Neg (Num "0.5"); "vmax" ;= Num "0.5" ]) ];
    Markdown;
    Code [ Name "residuals" <~ Call (Name "stacked");."residuals" ["method" ;= Str "diff"];
           ExprS (Call
             (Call (Name "residuals");."smooth" [Str "0.08 deg"]);."plot_interactive"
             [ "cmap" ;= Str "coolwarm";
               "vmin" ;= Neg (Num "0.1"); "vmax" ;= Num "0.1";
               "stretch" ;= Str "linear"; "add_cbar" ;= BoolC true ]) ];
    Markdown;
    Code [ Name "profile" <~ Call (Name "fit");."stat_profile" ["parameter" ;= Str "lon_0"] ];
    Markdown;
    Code [ Name "total_stat" <~ (Name "result");."total_stat";
           stat_profile_plot;
           ExprS (Call (Name "plt");."xlabel" [Str "Lon (deg)"]);
           ExprS (Call (Name "plt");."ylabel" [Str "Delta TS"]) ];
    Markdown;
    Markdown;
    Code [ Name "spec" <~ (Name "sky_model");."spectral_model";
           Name "covar" <~
             Call (Name "result");."parameters";."get_subcovariance"
               [(Name "spec");."parameters"];
           (Name "spec");."parameters";."covariance" <~ Name "covar" ];
    Markdown;
    Code [ Name "energy_range" <~ BinOp (ListE [Num "1"; Num "10"]) Mult (Name "u");."TeV";
           ExprS (Call (Name "spec");."plot"
             ["energy_range" ;= Name "energy_range"; "energy_power" ;= Num "2"]);
           Name "ax" <~
             Call (Name "spec");."plot_error"
               ["energy_range" ;= Name "energy_range"; "energy_power" ;= Num "2"] ];
    Markdown;
    Code [ Name "e_edges" <~
             BinOp (ListE [Num "1"; Num "2"; Num "4"; Num "10"]) Mult (Name "u");."TeV";
           Name "fpe" <~
             Call (Name "FluxPointsEstimator")
               [ "datasets" ;= ListE [Name "stacked"];
                 "e_edges" ;= Name "e_edges";
                 "source" ;= Str "crab" ] ];
    Code [ Magic "%%time";
           Name "flux_points" <~ Call (Name "fpe");."run" [] ];
    Code [ Name "ax" <~
             Call (Name "spec");."plot_error"
               ["energy_range" ;= Name "energy_range"; "energy_power" ;= Num "2"];
           ExprS (Call (Name "flux_points");."plot"
             ["ax" ;= Name "ax"; "energy_power" ;= Num "2"]) ] ].

(** *** tutorials/sed_fitting.ipynb *)

(** [t["dnde_err"] = 0.5 * (t["dnde_errn"] + t["dnde_errp"])] *)
Definition dnde_err_assignment : stmt :=
  Sub_ (Name "t") (Str "dnde_err") <~
    BinOp (Num "0.5") Mult
          (BinOp (Sub_ (Name "t") (Str "dnde_errn")) Add (Sub_ (Name "t") (Str "dnde_errp"))).

(** [flux_points = FluxPoints(t[is_ul])] *)
Definition upper_limit_filter : stmt :=
  Name "flux_points" <~ Call (Name "FluxPoints") [Sub_ (Name "t") (Name "is_ul")].

(** The cell that stacks the three flux-point tables, adds the column
    [dnde_err] and removes the upper limits. *)
Definition stack_flux_points : list stmt :=
  [ Name "flux_points" <~
      Call (Name "FluxPoints");."stack"
        [ListE [Name "flux_points_gammacat"; Name "flux_points_3fhl"; Name "flux_points_3fgl"]];
    Name "t" <~ (Name "flux_points");."table";
    dnde_err_assignment;
    Name "is_ul" <~ Call (Name "np");."isfinite" [Sub_ (Name "t") (Str "dnde_err")];
    upper_limit_filter;
    ExprS (Name "flux_points") ].

Definition energy_range_sed : expr :=
  BinOp (ListE [Num "1e-4"; Num "1e2"]) Mult (Name "u");."TeV".

(** The plotting cell that follows each of the three fits. *)
Definition plot_fit (model result : string) : list stmt :=
  [ Name "ax" <~ Call (Name "flux_points");."plot" ["energy_power" ;= Num "2"];
    ExprS (Call (Name model);."plot"
      ["energy_range" ;= energy_range_sed; "ax" ;= Name "ax"; "energy_power" ;= Num "2"]);
    (Name model);."parameters";."covariance" <~ (Name result);."parameters";."covariance";
    ExprS (Call (Name model);."plot_error"
      ["energy_range" ;= energy_range_sed; "ax" ;= Name "ax"; "energy_power" ;= Num "2"]);
    ExprS (Call (Name "ax");."set_ylim" [Num "1e-13"; Num "1e-11"]) ].

(** [dataset = FluxPointsDataset(model, flux_points); fitter = Fit([dataset]);
    result = fitter.run()] *)
Definition run_fit (dataset result : string) : list stmt :=
  [ Name dataset <~ Call (Name "FluxPointsDataset") [Name "model"; Name "flux_points"];
    Name "fitter" <~ Call (Name "Fit") [ListE [Name dataset]];
    Name result <~ Call (Name "fitter");."run" [] ].

(** The cells that load the flux points, up to the stacked table. *)
Definition load_flux_points : notebook :=
  [ Markdown;
    Markdown;
    Code [ Magic "%matplotlib inline" ];
    Code ( [ Import "numpy" "np";
             ImportFrom "astropy" "units" "u" ] ++
           from_import "gammapy.modeling.models"
             [ "PowerLawSpectralModel"; "ExpCutoffPowerLawSpectralModel";
               "LogParabolaSpectralModel"; "SkyModel" ] ++
           from_import "gammapy.spectrum" ["FluxPointsDataset"; "FluxPoints"] ++
           from_import "gammapy.catalog" ["SOURCE_CATALOGS"] ++
           from_import "gammapy.modeling" ["Fit"] );
    Markdown;
    Code [ Name "catalog_3fgl" <~ Call (Sub_ (Name "SOURCE_CATALOGS") (Str "3fgl")) [];
           Name "catalog_3fhl" <~ Call (Sub_ (Name "SOURCE_CATALOGS") (Str "3fhl")) [];
           Name "catalog_gammacat" <~
             Call (Sub_ (Name "SOURCE_CATALOGS") (Str "gamma-cat")) [] ];
    Code [ Name "source_fermi_3fgl" <~ Sub_ (Name "catalog_3fgl") (Str "3FGL J1506.6-6219");
           Name "source_fermi_3fhl" <~ Sub_ (Name "catalog_3fhl") (Str "3FHL J1507.9-6228e");
           Name "source_gammacat" <~ Sub_ (Name "catalog_gammacat") (Str "HESS J1507-622") ];
    Markdown;
    Code [ Name "flux_points_gammacat" <~ (Name "source_gammacat");."flux_points";
           ExprS (Name "flux_points_gammacat");."table" ];
    Markdown;
    Code [ Name "flux_points_3fgl" <~
             Call (Name "source_fermi_3fgl");."flux_points";."to_sed_type"
               [ "sed_type" ;= Str "dnde";
                 "model" ;= Call (Name "source_fermi_3fgl");."spectral_model" [] ];
           Name "flux_points_3fhl" <~
             Call (Name "source_fermi_3fhl");."flux_points";."to_sed_type"
               [ "sed_type" ;= Str "dnde";
                 "model" ;= Call (Name "source_fermi_3fhl");."spectral_model" [] ] ];
    Markdown;
    Code stack_flux_points ].

(** The cells that fit the three spectral models to [flux_points]. *)
Definition fit_models : notebook :=
  [ Markdown;
    Code [ Name "pwl" <~
             Call (Name "PowerLawSpectralModel")
               [ "index" ;= Num "2";
                 "amplitude" ;= Str "1e-12 cm-2 s-1 TeV-1";
                 "reference" ;= Str "1 TeV" ];
           Name "model" <~ Call (Name "SkyModel") ["spectral_model" ;= Name "pwl"] ];
    Markdown;
    Code (run_fit "dataset_pwl" "result_pwl");
    Markdown;
    Code [ ExprS (Call (Name "print") [Name "result_pwl"]) ];
    Code [ ExprS (Call (Name "print") [Name "pwl"]) ];
    Markdown;
    Code (plot_fit "pwl" "result_pwl");
    Markdown;
    Code [ Name "ecpl" <~
             Call (Name "ExpCutoffPowerLawSpectralModel")
               [ "index" ;= Num "1.8";
                 "amplitude" ;= Str "2e-12 cm-2 s-1 TeV-1";
                 "reference" ;= Str "1 TeV";
                 "lambda_" ;= Str "0.1 TeV-1" ];
           Name "model" <~ Call (Name "SkyModel") ["spectral_model" ;= Name "ecpl"] ];
    Markdown;
    Code ( run_fit "dataset_ecpl" "result_ecpl" ++
           [ ExprS (Call (Name "print") [Name "ecpl"]) ] );
    Markdown;
    Code (plot_fit "ecpl" "result_ecpl");
    Markdown;
    Code [ Name "log_parabola" <~
             Call (Name "LogParabolaSpectralModel")
               [ "alpha" ;= Num "2";
                 "amplitude" ;= Str "1e-12 cm-2 s-1 TeV-1";
                 "reference" ;= Str "1 TeV";
                 "beta" ;= Num "0.1" ];
           Name "model" <~ Call (Name "SkyModel") ["spectral_model" ;= Name "log_parabola"] ];
    Code ( run_fit "dataset_log_parabola" "result_log_parabola" ++
           [ ExprS (Call (Name "print") [Name "log_parabola"]) ] );
    Code (plot_fit "log_parabola" "result_log_parabola");
    Markdown;
    Markdown;
    Code [] ].

Definition sed_fitting : notebook := load_flux_points ++ fit_models.

Definition notebooks : list notebook := [analysis_2; sed_fitting].

End Notebooks.

Import Notebooks.

(* ===================================================================== *)
(** ** The travis-ci build matrix *)
(* ===================================================================== *)

Module Travis.

(** An environment: [NAME=value] pairs, as written, quotes removed. *)
Definition environment := list (string * string).

Fixpoint lookup_env (x : string) (e : environment) : option string :=
  match e with
  | [] => None
  | (y, v) :: e' => if String.eqb x y then Some v else lookup_env x e'
  end.

(** One entry of [matrix: include:].  [stage] and [os] are [None] where the
    entry leaves them to the top-level defaults. *)
Record job := {
  title : string;
  stage : option string;
  os : option string;
  env : environment
}.

Definition env_global : environment :=
  [ ("PYTHON_VERSION", "3.7");
    ("NUMPY_VERSION", "stable");
    ("ASTROPY_VERSION", "stable");
    ("ASTROPY_USE_SYSTEM_PYTEST", "1");
    ("CONDA_DEPENDENCIES", "Cython click scipy healpy matplotlib pyyaml pandas naima sherpa regions reproject pandoc ipython iminuit");
    ("CONDA_DEPENDENCIES_OSX", "Cython click scipy healpy matplotlib pyyaml pandas naima sherpa regions reproject pandoc ipython iminuit");
    ("CONDA_DEPENDENCIES_WO_SHERPA", "Cython click scipy healpy matplotlib pyyaml pandas naima regions reproject pandoc ipython iminuit");
    ("CONDA_DEPENDENCIES_DOCS", "Cython click scipy healpy matplotlib pyyaml pandas naima pygments sherpa regions reproject pandoc ipython jupyter iminuit");
    ("PIP_DEPENDENCIES", "nbsphinx sphinx-astropy sphinx-gallery sphinx-click sphinx_rtd_theme pytest-astropy parfive pydantic");
    ("CONDA_CHANNELS", "astropy sherpa");
    ("FETCH_GAMMAPY_DATA", "true");
    ("TEST_COVERAGE", "false");
    ("TEST_PACKAGING", "false");
    ("RUN_INSTALL", "true");
    ("DEBUG", "True") ].

Definition main_test : job :=
  {| title := "Main test, used for coverage";
     stage := Some "Initial tests"; os := None;
     env := [ ("TEST_COVERAGE", "true"); ("CMD", "make test-cov");
              ("PIP_DEPENDENCIES", "$PIP_DEPENDENCIES pytest-cov codecov") ] |}.

Definition macos_tests : job :=
  {| title := "MacOS X tests";
     stage := None; os := Some "osx";
     env := [ ("PYTHON_VERSION", "3.6"); ("CMD", "make test");
              ("CONDA_DEPENDENCIES", "$CONDA_DEPENDENCIES_OSX") ] |}.

Definition no_optional_deps : job :=
  {| title := "Run tests without optional dependencies";
     stage := None; os := None;
     env := [ ("PYTHON_VERSION", "3.6"); ("CMD", "make test");
              ("CONDA_DEPENDENCIES", "Cython click regions");
              ("PIP_DEPENDENCIES", "pytest-astropy parfive pydantic") ] |}.

Definition no_gammapy_data : job :=
  {| title := "Run tests without GAMMAPY_DATA available";
     stage := Some "Initial tests"; os := None;
     env := [ ("CMD", "make test"); ("FETCH_GAMMAPY_DATA", "false") ] |}.

Definition build_docs : job :=
  {| title := "Build docs";
     stage := None; os := None;
     env := [ ("CMD", "make docs-all");
              ("CONDA_DEPENDENCIES", "$CONDA_DEPENDENCIES_DOCS") ] |}.

Definition conda_build : job :=
  {| title := "Test conda build";
     stage := None; os := None;
     env := [ ("CMD", "python setup.py bdist_conda");
              ("TEST_PACKAGING", "true");
              ("CONDA_CHANNELS", "astropy sherpa conda-forge") ] |}.

Definition astropy_dev : job :=
  {| title := "Test with Astropy dev version";
     stage := None; os := None;
     env := [ ("PYTHON_VERSION", "3.6"); ("ASTROPY_VERSION", "dev"); ("CMD", "make test");
              ("CONDA_DEPENDENCIES", "$CONDA_DEPENDENCIES") ] |}.

Definition sherpa_dev : job :=
  {| title := "Test with Sherpa dev, this may take a longer time";
     stage := None; os := None;
     env := [ ("PYTHON_VERSION", "3.6"); ("SETUP_CMD", "make test");
              ("CONDA_DEPENDENCIES", "$CONDA_DEPENDENCIES_WO_SHERPA"); ("DEBUG", "True");
              ("PIP_DEPENDENCIES", "git+http://github.com/sherpa/sherpa.git#egg=sherpa pytest-astropy parfive pydantic") ] |}.

Definition test_notebooks : job :=
  {| title := "Test Jupyter notebooks";
     stage := None; os := None;
     env := [ ("PYTHON_VERSION", "3.6"); ("CMD", "make test-nb");
              ("CONDA_DEPENDENCIES", "$CONDA_DEPENDENCIES_DOCS") ] |}.

Definition test_scripts : job :=
  {| title := "Test example scripts";
     stage := None; os := None;
     env := [ ("PYTHON_VERSION", "3.6"); ("CMD", "make test-scripts");
              ("CONDA_DEPENDENCIES", "$CONDA_DEPENDENCIES") ] |}.

Definition matrix_include : list job :=
  [ main_test; macos_tests; no_optional_deps; no_gammapy_data; build_docs;
    conda_build; astropy_dev; sherpa_dev; test_notebooks; test_scripts ].

(** The value of a variable in a job: the entry's own [env] overrides
    [env: global:]. *)
Definition getenv (j : job) (x : string) : option string :=
  match lookup_env x (env j) with
  | Some v => Some v
  | None => lookup_env x env_global
  end.

(** The command a job declares for the runner. *)
Definition declared_cmd (j : job) : option string := lookup_env "CMD" (env j).

(** A line of the [script:] phase: [if $VAR; then body; fi], or a line
    that is the expansion of one variable. *)
Inductive line :=
| IfVar (var : string) (body : list string)
| RunVar (var : string).

Definition script : list line :=
  [ IfVar "FETCH_GAMMAPY_DATA"
      [ "export GAMMAPY_DATA=${HOME}/gammapy-data";
        "pip install -e .";
        "gammapy download datasets --out=$GAMMAPY_DATA --tests --silent" ];
    IfVar "RUN_INSTALL" [ "pip install -e ." ];
    RunVar "CMD" ].

Definition space : Ascii.ascii := Ascii.ascii_of_nat 32.
Definition tab : Ascii.ascii := Ascii.ascii_of_nat 9.
Definition newline : Ascii.ascii := Ascii.ascii_of_nat 10.

Definition blank (c : Ascii.ascii) : bool :=
  Ascii.eqb c space || Ascii.eqb c tab || Ascii.eqb c newline.

(** The words the shell splits an unquoted expansion into. *)
Fixpoint words_from (word : string) (s : string) : list string :=
  match s with
  | EmptyString => match word with EmptyString => [] | _ => [word] end
  | String c s' =>
      if blank c
      then match word with
           | EmptyString => words_from EmptyString s'
           | _ => word :: words_from EmptyString s'
           end
      else words_from (word +:+ String c EmptyString) s'
  end.

Definition words (s : string) : list string := words_from EmptyString s.

(** What the shell makes of the condition in [if $VAR; then]: the
    expansion is run as a command.  An unset or blank variable leaves no
    command, which succeeds; [true] and [:] succeed and [false] fails,
    whatever follows them; any other word names a command whose outcome
    the configuration does not decide. *)
Inductive condition :=
| Holds
| Fails
| Undecided.

Definition condition_of (v : option string) : condition :=
  match v with
  | None => Holds
  | Some s =>
      match words s with
      | [] => Holds
      | c :: _ =>
          if String.eqb c "true" || String.eqb c ":" then Holds
          else if String.eqb c "false" then Fails
          else Undecided
      end
  end.

(** The commands one script line runs in a job.  The body of a
    conditional line is run where the condition holds; where it is
    undecided the line is taken to run nothing.  [$VAR] of an unset
    variable expands to nothing, and the shell then runs nothing; an empty
    value is listed as the empty command line. *)
Definition run_line (j : job) (l : line) : list string :=
  match l with
  | IfVar x body =>
      match condition_of (getenv j x) with
      | Holds => body
      | _ => []
      end
  | RunVar x =>
      match getenv j x with
      | Some c => [c]
      | None => []
      end
  end.

Definition run_script (j : job) : list string := flat_map (run_line j) script.

(** What the script phase runs through [$CMD]. *)
Definition script_cmd (j : job) : list string := run_line j (RunVar "CMD").

(** The job declares its command in [CMD] and the script runs exactly it. *)
Definition runs_declared_cmd (j : job) : Prop :=
  exists c, declared_cmd j = Some c /\ script_cmd j = [c] /\ last (run_script j) = Some c.

End Travis.

(* ===================================================================== *)
(** ** Static analyses of a notebook *)
(* ===================================================================== *)

Module Static.

Fixpoint assoc {A} (x : string) (l : list (string * A)) : option A :=
  match l with
  | [] => None
  | (y, v) :: l' => if String.eqb x y then Some v else assoc x l'
  end.

Definition mem (x : string) (l : list string) : bool := existsb (String.eqb x) l.

(** *** Which library entry point a call reaches *)

(** What is known of the variables at a program point: [classes] are the
    names bound by [from m import C]; [kinds] maps a variable to the class
    whose constructor ([C(...)] or [C.method(...)]) produced its value. *)
Record facts := {
  classes : list string;
  kinds : list (string * string)
}.

Definition no_facts : facts := {| classes := []; kinds := [] |}.

Fixpoint dotted (e : expr) : option string :=
  match e with
  | Name x => Some x
  | Attr r a =>
      match dotted r with
      | Some s => Some (s +:+ "." +:+ a)
      | None => None
      end
  | _ => None
  end.

(** The name of the function a call expression [f(...)] invokes: a method
    of a variable of known class is named by the class ([Fit.run] for
    [fit.run] after [fit = Fit(...)]), any other by its dotted path or
    subscript; [_] stands for a receiver or callee that is itself computed. *)
Definition callee (k : facts) (f : expr) : string :=
  match f with
  | Name x => x
  | Attr (Name x) m =>
      match assoc x (kinds k) with
      | Some C => C +:+ "." +:+ m
      | None => x +:+ "." +:+ m
      end
  | Attr r m =>
      match dotted r with
      | Some s => s +:+ "." +:+ m
      | None => "_." +:+ m
      end
  | Sub_ (Name x) (Str s) => x +:+ "[" +:+ s +:+ "]"
  | _ => "_"
  end.

(** The calls of an expression, in the order Python performs them: the
    callee expression, then the arguments left to right, then the call. *)
Fixpoint calls_expr (k : facts) (e : expr) : list string :=
  match e with
  | Name _ | Num _ | Str _ | BoolC _ => []
  | Attr r _ => calls_expr k r
  | Call f args => calls_expr k f ++ flat_map (calls_expr k) args ++ [callee k f]
  | Kw _ v => calls_expr k v
  | Sub_ v i => calls_expr k v ++ calls_expr k i
  | BinOp l _ r => calls_expr k l ++ calls_expr k r
  | Neg v => calls_expr k v
  | ListE es | TupleE es | FStr es | DictE es => flat_map (calls_expr k) es
  | Fmt v _ => calls_expr k v
  end.

Definition kind_of (k : facts) (rhs : expr) : option string :=
  match rhs with
  | Call (Name C) _ => Some C
  | Call (Attr (Name C) _) _ => if mem C (classes k) then Some C else None
  | _ => None
  end.

Definition forget (x : string) (l : list (string * string)) : list (string * string) :=
  filter (fun p => negb (String.eqb x (fst p))) l.

Definition bind_kind (k : facts) (x : string) (c : option string) : facts :=
  {| classes := classes k;
     kinds := match c with
              | Some C => (x, C) :: forget x (kinds k)
              | None => forget x (kinds k)
              end |}.

(** Facts after a statement (of a branch or loop body nothing is kept but
    what it forgets). *)
Fixpoint after (k : facts) (s : stmt) : facts :=
  match s with
  | ImportFrom _ _ a => {| classes := a :: classes k; kinds := forget a (kinds k) |}
  | Import _ a => bind_kind k a None
  | Assign (Name x) rhs => bind_kind k x (kind_of k rhs)
  | For x _ body => fold_left after body (bind_kind k x None)
  | If _ th el => fold_left after el (fold_left after th k)
  | Try b h => fold_left after h (fold_left after b k)
  | _ => k
  end.

Definition after_all (k : facts) (p : list stmt) : facts := fold_left after p k.

Definition calls_target (k : facts) (t : expr) : list string :=
  match t with
  | Name _ => []
  | _ => calls_expr k t
  end.

Fixpoint calls_stmt (k : facts) (s : stmt) : list string :=
  let block := fix block (k : facts) (p : list stmt) : list string :=
    match p with
    | [] => []
    | s :: p' => calls_stmt k s ++ block (after k s) p'
    end in
  match s with
  | Magic _ | Import _ _ | ImportFrom _ _ _ => []
  | ExprS e | Assert e | Raise e => calls_expr k e
  | Assign t e => calls_expr k e ++ calls_target k t
  | For x it body => calls_expr k it ++ block (bind_kind k x None) body
  | If c th el => calls_expr k c ++ block k th ++ block (after_all k th) el
  | Try b h => block k b ++ block (after_all k b) h
  end.

Fixpoint calls_block (k : facts) (p : list stmt) : list string :=
  match p with
  | [] => []
  | s :: p' => calls_stmt k s ++ calls_block (after k s) p'
  end.

(** Every call of the notebook, in script order (a loop body once). *)
Definition calls (nb : notebook) : list string := calls_block no_facts (script nb).

(** *** The steps of an analysis *)

Inductive step :=
| OpenDataStore
| SelectObservations
| MakeGeometry
| ReduceAndStack
| AssignModel
| RunFit
| ComputeFluxPoints
| PlotFluxPoints.

#[global] Instance step_eq_dec : EqDecision step.
Proof. solve_decision. Defined.

Definition step_of_call (c : string) : list step :=
  if String.eqb c "DataStore.from_dir" then [OpenDataStore]
  else if String.eqb c "data_store.obs_table.select_observations" then [SelectObservations]
  else if String.eqb c "WcsGeom.create" then [MakeGeometry]
  else if String.eqb c "FluxPointsDataset" then [AssignModel]
  else if String.eqb c "Fit.run" then [RunFit]
  else if String.eqb c "FluxPointsEstimator.run" then [ComputeFluxPoints]
  else if String.eqb c "flux_points.plot" || String.eqb c "FluxPoints.plot"
       then [PlotFluxPoints]
  else [].

(** A loop over observations that applies a maker and stacks the result. *)
Definition is_reduction_loop (k : facts) (s : stmt) : bool :=
  match s with
  | For x _ body =>
      let cs := calls_block (bind_kind k x None) body in
      mem "MapDatasetMaker.run" cs && mem "MapDataset.stack" cs
  | _ => false
  end.

(** [dataset.models = model]; a flux-points dataset is given its model
    when it is made, by [FluxPointsDataset(model, data)]. *)
Definition is_model_assignment (s : stmt) : bool :=
  match s with
  | Assign (Attr _ "models") _ => true
  | _ => false
  end.

Definition steps_stmt (k : facts) (s : stmt) : list step :=
  if is_reduction_loop k s then [ReduceAndStack]
  else if is_model_assignment s then [AssignModel]
  else flat_map step_of_call (calls_stmt k s).

Fixpoint steps_block (k : facts) (p : list stmt) : list step :=
  match p with
  | [] => []
  | s :: p' => steps_stmt k s ++ steps_block (after k s) p'
  end.

Definition steps (nb : notebook) : list step := steps_block no_facts (script nb).

(** Steps (a) to (g) of the analysis workflow. *)
Definition workflow : list step :=
  [ OpenDataStore; SelectObservations; MakeGeometry; ReduceAndStack;
    AssignModel; RunFit; ComputeFluxPoints; PlotFluxPoints ].

(** The steps of a notebook that fits three models to one table. *)
Definition three_fits : list step :=
  [ AssignModel; RunFit; PlotFluxPoints;
    AssignModel; RunFit; PlotFluxPoints;
    AssignModel; RunFit; PlotFluxPoints ].

(** [l1] occurs in [l2] in this order, other steps in between allowed. *)
Fixpoint in_order (l1 l2 : list step) : bool :=
  match l1, l2 with
  | [], _ => true
  | _ :: _, [] => false
  | a :: l1', b :: l2' =>
      if decide (a = b) then in_order l1' l2' else in_order l1 l2'
  end.

Fixpoint loops_stmt (s : stmt) : nat :=
  match s with
  | For _ _ body => S (list_sum (List.map loops_stmt body))
  | If _ th el => list_sum (List.map loops_stmt th) + list_sum (List.map loops_stmt el)
  | Try b h => list_sum (List.map loops_stmt b) + list_sum (List.map loops_stmt h)
  | _ => 0
  end.

Definition count_loops (nb : notebook) : nat := list_sum (List.map loops_stmt (script nb)).

(** *** Error handling *)

(** The statement contains [try]/[except], [assert] or [raise]. *)
Fixpoint error_code (s : stmt) : bool :=
  match s with
  | Try _ _ | Assert _ | Raise _ => true
  | For _ _ body => existsb error_code body
  | If _ th el => existsb error_code th || existsb error_code el
  | _ => false
  end.

(** The statement contains a conditional, without which nothing can be
    validated, retried or recovered. *)
Fixpoint branches (s : stmt) : bool :=
  match s with
  | If _ _ _ => true
  | For _ _ body => existsb branches body
  | Try b h => existsb branches b || existsb branches h
  | _ => false
  end.

Definition has_branches (nb : notebook) : bool := existsb branches (script nb).

(** *** Computation written in the notebook itself *)

Fixpoint literal (e : expr) : bool :=
  match e with
  | Num _ | Str _ | BoolC _ => true
  | Neg v => literal v
  | ListE es | TupleE es => forallb literal es
  | _ => false
  end.

(** A name, an attribute path, or a call on one with literal arguments:
    it names an object of the library and reads no data. *)
Fixpoint reference (e : expr) : bool :=
  match e with
  | Name _ => true
  | Attr r _ => reference r
  | Call f args => reference f && forallb literal args
  | _ => false
  end.

(** [2.5 * u.deg], [2 * offset_max], [path / "file"]: a literal attached to
    a unit, a parameter or a path. *)
Definition scales_literal (l r : expr) : bool :=
  (literal l && reference r) || (reference l && literal r).

(** The expression applies an arithmetic operator to data, or selects
    rows by a computed index: a computation stated by the notebook, not a
    call of a library function. *)
Fixpoint computes (e : expr) : bool :=
  match e with
  | Name _ | Num _ | Str _ | BoolC _ => false
  | Attr r _ => computes r
  | Call f args => computes f || existsb computes args
  | Kw _ v | Fmt v _ => computes v
  | Sub_ v i => computes v || computes i || negb (literal i)
  | BinOp l _ r => computes l || computes r || negb (scales_literal l r)
  | Neg v => computes v || negb (literal v)
  | ListE es | TupleE es | FStr es | DictE es => existsb computes es
  end.

Fixpoint computes_locally (s : stmt) : bool :=
  match s with
  | Magic _ | Import _ _ | ImportFrom _ _ _ => false
  | ExprS e | Assert e | Raise e => computes e
  | Assign t e => computes t || computes e
  | For _ it body => computes it || existsb computes_locally body
  | If c th el => computes c || existsb computes_locally th || existsb computes_locally el
  | Try b h => existsb computes_locally b || existsb computes_locally h
  end.

(** The statements of a notebook that compute on data themselves. *)
Definition local_computations (nb : notebook) : list stmt :=
  filter (fun s => computes_locally s) (script nb).

(** *** Names read and bound *)




Definition binds_target (t : expr) : list string :=
  match t with
  | Name x => [x]
  | _ => []
  end.






(** Every name a notebook may bind, loop variables and loop bodies included. *)
Fixpoint assigns (s : stmt) : list string :=
  match s with
  | Import _ a | ImportFrom _ _ a => [a]
  | Assign t _ => binds_target t
  | For x _ body => x :: flat_map assigns body
  | If _ th el => flat_map assigns th ++ flat_map assigns el
  | Try b h => flat_map assigns b ++ flat_map assigns h
  | _ => []
  end.


(** *** File-system effects *)

(** What a statement may do to data files: read data below a path, make
    a directory, write a file of data products; [UnknownPath] is a call
    that takes a path which the analysis cannot evaluate, [Unclassified]
    anything that is not known to keep to the paths it is given.  The files
    of Python's own machinery (modules, configuration, fonts) are not data
    files. *)
Inductive fs_effect :=
| ReadPath (p : string)
| MakeDir (p : string)
| WritePath (p : string)
| UnknownPath (entry : string)
| Unclassified (what : string).

(** The parts an entry point of the library can take in the access to
    data files. *)
Inductive entry_kind :=
| Reader
| DataReader
| Writer
| DirMaker
| PathMaker
| ObjectEntry
| Unlisted.

(** Modelled from the spec: the data file interface is library code
    outside the sources; these lists tell its entry points apart by name,
    the method name [m] of [r.m(...)] or the function name [f] of
    [f(...)].  Readers, writers and directory makers take a path.  The
    object entry points take objects, numbers and text but no path, and so
    do the attributes and items that a notebook may assign.  A catalog is
    made by calling an item of [SOURCE_CATALOGS]; it is read from the
    library's own data, below the directory that [GAMMAPY_DATA] names. *)
Definition reader_methods : list string := ["from_dir"; "read"; "open"; "load"; "from_file"].
Definition writer_methods : list string := ["write"; "writeto"; "save"; "savefig"; "dump"].
Definition dir_maker_methods : list string := ["mkdir"; "makedirs"].

Definition object_methods : list string :=
  [ "select_observations"; "get_observations";
    "from_energy_bounds"; "create"; "region_mask"; "from_geom";
    "Unit"; "cutout"; "run"; "stack";
    "sum_over_axes"; "smooth"; "plot"; "plot_interactive"; "plot_residuals";
    "residuals"; "plot_error"; "xlabel"; "ylabel";
    "stat_profile"; "to_table"; "get_subcovariance";
    "spectral_model"; "to_sed_type"; "isfinite"; "set_ylim" ].

(** The attributes and the items that are assigned an object. *)
Definition object_attributes : list string := ["models"; "covariance"].
Definition object_items : list string := ["dnde_err"].

Definition data_registries : list string := ["SOURCE_CATALOGS"].
Definition data_dir : string := "$GAMMAPY_DATA".

Definition reader_functions : list string := ["open"].
Definition path_functions : list string := ["Path"].

Definition object_functions : list string :=
  [ "dict"; "print";
    "MapDatasetMaker"; "SafeMaskMaker"; "FoVBackgroundMaker";
    "SkyCoord"; "CircleSkyRegion";
    "PointSpatialModel"; "PowerLawSpectralModel"; "SkyModel";
    "ExpCutoffPowerLawSpectralModel"; "LogParabolaSpectralModel";
    "Fit"; "FluxPointsEstimator"; "FluxPoints"; "FluxPointsDataset" ].

Definition functions : list string :=
  reader_functions ++ path_functions ++ object_functions.

Definition method_kind (m : string) : entry_kind :=
  if mem m reader_methods then Reader
  else if mem m writer_methods then Writer
  else if mem m dir_maker_methods then DirMaker
  else if mem m object_methods then ObjectEntry
  else Unlisted.

Definition function_kind (f : string) : entry_kind :=
  if mem f reader_functions then Reader
  else if mem f path_functions then PathMaker
  else if mem f object_functions then ObjectEntry
  else Unlisted.

(** The modules whose objects follow these rules, and the magics that
    touch no data file. *)
Definition modules : list string :=
  [ "matplotlib.pyplot"; "pathlib"; "numpy"; "astropy"; "astropy.coordinates";
    "regions"; "gammapy.data"; "gammapy.maps"; "gammapy.cube";
    "gammapy.modeling.models"; "gammapy.modeling"; "gammapy.spectrum";
    "gammapy.catalog" ].

Definition magics : list string := ["%matplotlib inline"; "%%time"].

(** The name of the entry point a call [f(...)] reaches, and its kind; a
    callee that is itself computed is not listed. *)
Definition entry_of (f : expr) : string :=
  match f with
  | Name x => x
  | Attr _ m => m
  | _ => "_"
  end.

Definition kind_of_entry (f : expr) : entry_kind :=
  match f with
  | Name x => function_kind x
  | Attr _ m => method_kind m
  | Sub_ (Name r) (Str _) => if mem r data_registries then DataReader else Unlisted
  | _ => Unlisted
  end.

(** The path an expression denotes, given the paths of the variables:
    a string, [Path(p)], [p / q], or a variable holding one. *)
Fixpoint path_value (paths : list (string * string)) (e : expr) : option string :=
  match e with
  | Str s => Some s
  | Name x => assoc x paths
  | Call (Name "Path") [a] => path_value paths a
  | BinOp l Div r =>
      match path_value paths l, path_value paths r with
      | Some p, Some q => Some (p +:+ "/" +:+ q)
      | _, _ => None
      end
  | _ => None
  end.

Definition first_arg (paths : list (string * string)) (args : list expr) : option string :=
  match args with
  | a :: _ => path_value paths a
  | [] => None
  end.

Definition effect_at (m : string) (p : option string) (mk : string -> fs_effect)
  : list fs_effect :=
  match p with
  | Some q => [mk q]
  | None => [UnknownPath m]
  end.

(** The text and the paths an expression holds. *)
Fixpoint strings_in (paths : list (string * string)) (e : expr) : list string :=
  match e with
  | Str s => [s]
  | Name x =>
      match assoc x paths with
      | Some p => [p]
      | None => []
      end
  | Num _ | BoolC _ => []
  | Attr r _ => strings_in paths r
  | Call f args => strings_in paths f ++ flat_map (strings_in paths) args
  | Kw _ v | Fmt v _ | Neg v => strings_in paths v
  | Sub_ v i => strings_in paths v ++ strings_in paths i
  | BinOp l _ r => strings_in paths l ++ strings_in paths r
  | ListE es | TupleE es | FStr es | DictE es => flat_map (strings_in paths) es
  end.

Definition text_free (paths : list (string * string)) (es : list expr) : bool :=
  forallb (fun e => match strings_in paths e with [] => true | _ :: _ => false end) es.

(** The path a directory maker acts on, its receiver when that is a
    path, as in [path.mkdir()], else its first argument; and the arguments
    that are left over. *)
Definition dir_of (paths : list (string * string)) (f : expr) (args : list expr)
  : option string * list expr :=
  match f with
  | Attr r _ =>
      match path_value paths r with
      | Some p => (Some p, args)
      | None => (first_arg paths args, tl args)
      end
  | _ => (first_arg paths args, tl args)
  end.

(** An entry point that takes a path is followed only as far as that one
    path: text or a path among its other arguments could name another
    file. *)
Definition one_path (paths : list (string * string)) (m : string) (others : list expr)
  : list fs_effect :=
  if text_free paths others then [] else [UnknownPath m].

(** Modelled from the spec: what one call [f(args)] may do to data
    files, the library's code being outside the sources.  A reader opens
    the file or directory that its first argument names and reads below
    it; a catalog is read below the library's data directory; a writer
    writes the file that its first argument names; a directory maker makes
    the directory named by its receiver, or by its first argument; [Path]
    only makes a path.  An object entry point names
    no file: the data it reads, as [get_observations] and the makers do
    when they load the events and the instrument response of an
    observation, lie below a directory in [opened], those that the
    notebook has a reader open.  A reader and a writer may read there as
    well.  Nothing else is known to keep to these rules: any other entry
    point is [Unclassified], and so is, in a statement, any other module,
    magic or target of an assignment. *)
Definition fs_call (paths : list (string * string)) (opened : list string)
  (f : expr) (args : list expr) : list fs_effect :=
  let m := entry_of f in
  match kind_of_entry f with
  | Reader =>
      effect_at m (first_arg paths args) ReadPath ++ one_path paths m (tl args) ++
      List.map ReadPath opened
  | DataReader => ReadPath data_dir :: one_path paths m args ++ List.map ReadPath opened
  | Writer =>
      effect_at m (first_arg paths args) WritePath ++ one_path paths m (tl args) ++
      List.map ReadPath opened
  | DirMaker =>
      effect_at m (dir_of paths f args).1 MakeDir ++ one_path paths m (dir_of paths f args).2
  | PathMaker => []
  | ObjectEntry => List.map ReadPath opened
  | Unlisted => [Unclassified m]
  end.

Fixpoint fs_expr (paths : list (string * string)) (opened : list string) (e : expr)
  : list fs_effect :=
  match e with
  | Name _ | Num _ | Str _ | BoolC _ => []
  | Attr r _ => fs_expr paths opened r
  | Call f args =>
      fs_expr paths opened f ++ flat_map (fs_expr paths opened) args ++
      fs_call paths opened f args
  | Kw _ v | Fmt v _ | Neg v => fs_expr paths opened v
  | Sub_ v i => fs_expr paths opened v ++ fs_expr paths opened i
  | BinOp l _ r => fs_expr paths opened l ++ fs_expr paths opened r
  | ListE es | TupleE es | FStr es | DictE es => flat_map (fs_expr paths opened) es
  end.

Definition drop_path (x : string) (paths : list (string * string)) : list (string * string) :=
  filter (fun p => negb (String.eqb x (fst p))) paths.

Definition bind_path (paths : list (string * string)) (x : string) (e : expr)
  : list (string * string) :=
  match path_value paths e with
  | Some p => (x, p) :: drop_path x paths
  | None => drop_path x paths
  end.

Fixpoint paths_after (paths : list (string * string)) (s : stmt) : list (string * string) :=
  match s with
  | Import _ a | ImportFrom _ _ a => drop_path a paths
  | Assign (Name x) e => bind_path paths x e
  | For x _ body => fold_left paths_after body (drop_path x paths)
  | If _ th el => fold_left paths_after el (fold_left paths_after th paths)
  | Try b h => fold_left paths_after h (fold_left paths_after b paths)
  | _ => paths
  end.

(** A variable that takes the name of a listed function would make calls
    by that name reach something else. *)
Definition rebinds (x : string) : list fs_effect :=
  if mem x functions then [Unclassified x] else [].

Definition import_effect (m n a : string) : list fs_effect :=
  if mem m modules then (if String.eqb n a then [] else rebinds a)
  else [Unclassified m].

Fixpoint fs_stmt (paths : list (string * string)) (opened : list string) (s : stmt)
  : list fs_effect :=
  let block := fix block (paths : list (string * string)) (p : list stmt) : list fs_effect :=
    match p with
    | [] => []
    | s :: p' => fs_stmt paths opened s ++ block (paths_after paths s) p'
    end in
  match s with
  | Magic l => if mem l magics then [] else [Unclassified l]
  | Import m a => import_effect m a a
  | ImportFrom m n a => import_effect m n a
  | ExprS e | Assert e | Raise e => fs_expr paths opened e
  | Assign t e =>
      fs_expr paths opened e ++
      match t with
      | Name x => rebinds x
      | Attr r a =>
          fs_expr paths opened r ++
          (if mem a object_attributes then [] else [Unclassified a])
      | Sub_ r (Str k) =>
          fs_expr paths opened r ++
          (if mem k object_items then [] else [Unclassified k])
      | _ => fs_expr paths opened t ++ [Unclassified (entry_of t)]
      end
  | For x it body =>
      fs_expr paths opened it ++ rebinds x ++ block (drop_path x paths) body
  | If c th el =>
      fs_expr paths opened c ++ block paths th ++ block (fold_left paths_after th paths) el
  | Try b h => block paths b ++ block (fold_left paths_after b paths) h
  end.

Fixpoint fs_block (paths : list (string * string)) (opened : list string) (p : list stmt)
  : list fs_effect :=
  match p with
  | [] => []
  | s :: p' => fs_stmt paths opened s ++ fs_block (paths_after paths s) opened p'
  end.

Definition reads_of (fs : list fs_effect) : list string :=
  flat_map (fun f => match f with ReadPath p => [p] | _ => [] end) fs.

(** The directories and files the notebook has readers open, anywhere in
    the script: an object may hold data of any of them. *)
Definition opened (nb : notebook) : list string := reads_of (fs_block [] [] (script nb)).

(** What a notebook may do to data files, in script order. *)
Definition fs_effects (nb : notebook) : list fs_effect :=
  fs_block [] (opened nb) (script nb).



Definition unknown_paths (nb : notebook) : list string :=
  flat_map (fun f => match f with UnknownPath m => [m] | _ => [] end) (fs_effects nb).

Definition unclassified (nb : notebook) : list string :=
  flat_map (fun f => match f with Unclassified m => [m] | _ => [] end) (fs_effects nb).








End Static.

(* ===================================================================== *)
(** ** Running a notebook against a library *)
(* ===================================================================== *)

Module Sem.

Section Interpreter.

(** Python objects, the exceptions a library raises, and everything a
    library call can depend on or change (objects' contents, files, the
    figure being drawn). *)
Context {value exn world : Type}.

(** An argument of a call, with its keyword if it has one. *)
Definition arg : Type := option string * value.

(** What a script asks of the Python runtime and the libraries.  A call
    records the receiver and the method name when the callee was written
    [r.m]. *)
Inductive request :=
| RMagic (line : string)
| RImport (module : string)
| RImportFrom (module : string) (name : string)
| RBuiltin (x : string)
| RGetAttr (v : value) (a : string)
| RCall (f : value) (method : option (value * string)) (args : list arg)
| RGetItem (v : value) (i : value)
| RBinOp (op : binop) (l : value) (r : value)
| RNeg (v : value)
| RDict (items : list value)
| RFormat (v : value) (spec : string)
| RSetAttr (v : value) (a : string) (x : value)
| RSetItem (v : value) (i : value) (x : value)
| RIter (v : value)
| RTruth (v : value).

(** Values that are built without running library code. *)
Inductive builder :=
| BNum (literal : string)
| BStr (s : string)
| BBool (b : bool)
| BList
| BTuple
| BJoin.

(** The library: any behaviour whatever.  A request is answered by a value
    or by an exception, and may change the world. *)
Record library := {
  build : builder -> list value -> value;
  respond : request -> world -> (exn + value) * world;
  items : value -> list value;
  truth : value -> bool
}.

Context (L : library).

Inductive error :=
| Raised (e : exn)
| AssertionError
| RaisedValue (v : value).

Inductive result (A : Type) :=
| Ok (a : A)
| Error (e : error).
Arguments Ok {A} a.
Arguments Error {A} e.

(** One answered request. *)
Definition event : Type := request * (exn + value).

(** The state of a run: the notebook's namespace, the world, and the log of
    the requests made so far. *)
Record state := {
  ns : gmap string value;
  wd : world;
  tr : list event
}.

Definition M (A : Type) : Type := state -> result A * state.

Definition ret {A} (a : A) : M A := fun st => (Ok a, st).

Definition bind {A B} (m : M A) (k : A -> M B) : M B :=
  fun st =>
    match m st with
    | (Ok a, st') => k a st'
    | (Error e, st') => (Error e, st')
    end.

Definition throw {A} (e : error) : M A := fun st => (Error e, st).

(** [try: m  except: h] *)
Definition catch {A} (m : M A) (h : M A) : M A :=
  fun st =>
    match m st with
    | (Ok a, st') => (Ok a, st')
    | (Error _, st') => h st'
    end.

(** Make a request: the library answers, the answer is logged, and an
    exception becomes the error of the computation. *)
Definition ask (r : request) : M value :=
  fun st =>
    let '(a, w) := respond L r (wd st) in
    let st' := {| ns := ns st; wd := w; tr := tr st ++ [(r, a)] |} in
    match a with
    | inr v => (Ok v, st')
    | inl e => (Error (Raised e), st')
    end.

(** A name is looked up in the notebook's namespace, then among the
    builtins. *)
Definition get_name (x : string) : M value :=
  fun st =>
    match ns st !! x with
    | Some v => (Ok v, st)
    | None => ask (RBuiltin x) st
    end.

Definition set_name (x : string) (v : value) : M unit :=
  fun st => (Ok tt, {| ns := <[x := v]> (ns st); wd := wd st; tr := tr st |}).

Definition skip : M unit := ret tt.

Definition for_each (body : value -> M unit) : list value -> M unit :=
  fix loop (vs : list value) : M unit :=
    match vs with
    | [] => skip
    | v :: vs' => bind (body v) (fun _ => loop vs')
    end.

(** Evaluation, in Python's order: callee before arguments, left operand
    before right, the items of a display left to right. *)
Fixpoint eval (e : expr) : M value :=
  let eval_list := fix eval_list (es : list expr) : M (list value) :=
    match es with
    | [] => ret []
    | e :: es' => bind (eval e) (fun v => bind (eval_list es') (fun vs => ret (v :: vs)))
    end in
  let eval_args := fix eval_args (es : list expr) : M (list arg) :=
    match es with
    | [] => ret []
    | Kw k e :: es' =>
        bind (eval e) (fun v => bind (eval_args es') (fun vs => ret ((Some k, v) :: vs)))
    | e :: es' =>
        bind (eval e) (fun v => bind (eval_args es') (fun vs => ret ((None, v) :: vs)))
    end in
  match e with
  | Name x => get_name x
  | Num n => ret (build L (BNum n) [])
  | Str s => ret (build L (BStr s) [])
  | BoolC b => ret (build L (BBool b) [])
  | Attr r a => bind (eval r) (fun v => ask (RGetAttr v a))
  | Call (Attr r m) args =>
      bind (eval r) (fun rv =>
      bind (ask (RGetAttr rv m)) (fun fv =>
      bind (eval_args args) (fun avs =>
      ask (RCall fv (Some (rv, m)) avs))))
  | Call f args =>
      bind (eval f) (fun fv =>
      bind (eval_args args) (fun avs =>
      ask (RCall fv None avs)))
  | Kw _ v => eval v
  | Sub_ r i => bind (eval r) (fun rv => bind (eval i) (fun iv => ask (RGetItem rv iv)))
  | BinOp l op r => bind (eval l) (fun lv => bind (eval r) (fun rv => ask (RBinOp op lv rv)))
  | Neg v => bind (eval v) (fun vv => ask (RNeg vv))
  | ListE es => bind (eval_list es) (fun vs => ret (build L BList vs))
  | TupleE es => bind (eval_list es) (fun vs => ret (build L BTuple vs))
  | DictE kvs => bind (eval_list kvs) (fun vs => ask (RDict vs))
  | FStr parts => bind (eval_list parts) (fun vs => ret (build L BJoin vs))
  | Fmt v spec => bind (eval v) (fun vv => ask (RFormat vv spec))
  end.

Fixpoint eval_list (es : list expr) : M (list value) :=
  match es with
  | [] => ret []
  | e :: es' => bind (eval e) (fun v => bind (eval_list es') (fun vs => ret (v :: vs)))
  end.

Fixpoint eval_args (es : list expr) : M (list arg) :=
  match es with
  | [] => ret []
  | Kw k e :: es' =>
      bind (eval e) (fun v => bind (eval_args es') (fun vs => ret ((Some k, v) :: vs)))
  | e :: es' =>
      bind (eval e) (fun v => bind (eval_args es') (fun vs => ret ((None, v) :: vs)))
  end.

(** [t = v] for a target [t]: a variable, [r.a] or [r[i]].  The value is
    computed before the target's own sub-expressions. *)
Definition assign (t : expr) (v : value) : M unit :=
  match t with
  | Name x => set_name x v
  | Attr r a => bind (eval r) (fun rv => bind (ask (RSetAttr rv a v)) (fun _ => skip))
  | Sub_ r i =>
      bind (eval r) (fun rv => bind (eval i) (fun iv =>
      bind (ask (RSetItem rv iv v)) (fun _ => skip)))
  | _ => skip
  end.

(** Execution of a statement.  A [for] loop first takes the items of the
    collection, then runs its body once for each.  That Jupyter displays
    the value of the last expression of a cell is left out. *)
Fixpoint exec (s : stmt) : M unit :=
  let block := fix block (p : list stmt) : M unit :=
    match p with
    | [] => skip
    | s :: p' => bind (exec s) (fun _ => block p')
    end in
  match s with
  | Magic l => bind (ask (RMagic l)) (fun _ => skip)
  | Import m a => bind (ask (RImport m)) (set_name a)
  | ImportFrom m n a => bind (ask (RImportFrom m n)) (set_name a)
  | ExprS e => bind (eval e) (fun _ => skip)
  | Assign t e => bind (eval e) (assign t)
  | For x it body =>
      bind (eval it) (fun c =>
      bind (ask (RIter c)) (fun i =>
      for_each (fun v => bind (set_name x v) (fun _ => block body)) (items L i)))
  | If c th el =>
      bind (eval c) (fun cv =>
      bind (ask (RTruth cv)) (fun b =>
      if truth L b then block th else block el))
  | Try b h => catch (block b) (block h)
  | Assert c =>
      bind (eval c) (fun cv =>
      bind (ask (RTruth cv)) (fun b =>
      if truth L b then skip else throw AssertionError))
  | Raise e => bind (eval e) (fun v => throw (RaisedValue v))
  end.

Fixpoint exec_block (p : list stmt) : M unit :=
  match p with
  | [] => skip
  | s :: p' => bind (exec s) (fun _ => exec_block p')
  end.

(** Running a notebook: its script, from a namespace and a world, with an
    empty log. *)
Definition run (nb : notebook) (n : gmap string value) (w : world)
  : result unit * state :=
  exec_block (script nb) {| ns := n; wd := w; tr := [] |}.

(** *** Reading a log *)

(** The request was answered by an exception. *)
Definition raised (ev : event) : option exn :=
  match snd ev with
  | inl e => Some e
  | inr _ => None
  end.

(** No request of the log was answered by an exception. *)
Definition quiet (t : list event) : Prop := Forall (fun ev => raised ev = None) t.

(** A method call of the log: receiver, method name, arguments, answer. *)
Record method_call := {
  receiver : value;
  method_name : string;
  arguments : list arg;
  answer : exn + value
}.

Definition method_calls (t : list event) : list method_call :=
  flat_map (fun ev : event =>
    match ev with
    | (RCall _ (Some (r, m)) args, a) =>
        [{| receiver := r; method_name := m; arguments := args; answer := a |}]
    | _ => []
    end) t.

(** The outcome of a computation that handles nothing: it ends normally
    and no request raised, or it ends with the exception that the last
    request raised, the only one. *)
Definition propagated {A} (out : result A * state) : Prop :=
  match out with
  | (Ok _, st) => quiet (tr st)
  | (Error (Raised e), st) =>
      exists pre ev, tr st = pre ++ [ev] /\ quiet pre /\ raised ev = Some e
  | (Error _, _) => False
  end.

Definition propagates {A} (m : M A) : Prop :=
  forall st, quiet (tr st) -> propagated (m st).



(** What a request adds to the method calls of the log. *)
Definition call_of (r : request) (a : exn + value) : list method_call :=
  method_calls [(r, a)].

Definition outcome (a : exn + value) : result value :=
  match a with
  | inr v => Ok v
  | inl e => Error (Raised e)
  end.

(** [wp m Q n c]: from any state with namespace [n] whose log holds the
    method calls [c], [m] ends with a result, a namespace and method calls
    that satisfy [Q]. *)
Definition wp {A} (m : M A) (Q : result A -> gmap string value -> list method_call -> Prop)
  (n : gmap string value) (c : list method_call) : Prop :=
  forall st, ns st = n -> method_calls (tr st) = c ->
    Q (m st).1 (ns (m st).2) (method_calls (tr (m st).2)).

(** The method calls of one pass of the reduction loop for [obs]: each
    maker is given the dataset the one before returned. *)
Definition iteration_calls (stacked maker maker_fov maker_safe_mask obs : value)
  (seg : list method_call) : Prop :=
  exists pointing width cutout d1 d2 d3 r,
    seg =
      [ {| receiver := stacked; method_name := "cutout";
           arguments := [(None, pointing); (Some "width", width)];
           answer := inr cutout |};
        {| receiver := maker; method_name := "run";
           arguments := [(None, cutout); (None, obs)];
           answer := inr d1 |};
        {| receiver := maker_fov; method_name := "run";
           arguments := [(None, d1)];
           answer := inr d2 |};
        {| receiver := maker_safe_mask; method_name := "run";
           arguments := [(None, d2); (None, obs)];
           answer := inr d3 |};
        {| receiver := stacked; method_name := "stack";
           arguments := [(None, d3)];
           answer := inr r |} ].

Definition call_name (c : method_call) : value * string := (receiver c, method_name c).

(** The variables the reduction loop relies on. *)
Definition makers_bound (stacked maker maker_fov maker_safe_mask : value)
  (n : gmap string value) : Prop :=
  n !! "stacked" = Some stacked /\ n !! "maker" = Some maker /\
  n !! "maker_fov" = Some maker_fov /\ n !! "maker_safe_mask" = Some maker_safe_mask.

Definition iteration_names (stacked maker maker_fov maker_safe_mask : value)
  : list (value * string) :=
  [ (stacked, "cutout"); (maker, "run"); (maker_fov, "run");
    (maker_safe_mask, "run"); (stacked, "stack") ].

(** [m] binds no variable outside [X]. *)
Definition binds_within {A} (X : list string) (m : M A) : Prop :=
  forall st x, ~ In x X -> ns (m st).2 !! x = ns st !! x.

End Interpreter.

Arguments result : clear implicits.
Arguments M : clear implicits.
Arguments request : clear implicits.
Arguments library : clear implicits.
Arguments error : clear implicits.
Arguments event : clear implicits.
Arguments state : clear implicits.
Arguments method_call : clear implicits.
Arguments Ok {value exn A} a.
Arguments Error {value exn A} e.

End Sem.

(** Stand-ins for the library, to run the notebooks on: an object is the
    text of the expression that made it. *)
Module Stub.

Import Sem.

Definition describe (r : request string) : string :=
  match r with
  | RImport m => m
  | RImportFrom _ n => n
  | RBuiltin x => x
  | RGetAttr v a => v +:+ "." +:+ a
  | RCall f _ _ => f +:+ "()"
  | RGetItem v i => v +:+ "[" +:+ i +:+ "]"
  | _ => "_"
  end.

Definition text (b : builder) (vs : list string) : string :=
  match b with
  | BNum s | BStr s => s
  | _ => "_"
  end.

(** Every request succeeds; the data store holds two observations. *)
Definition complete : library string string nat :=
  {| build := text;
     respond := fun r w => (inr (describe r), S w);
     items := fun _ => ["obs 23523"; "obs 23526"];
     truth := fun _ => true |}.

(** A namespace in which the reduction loop can start. *)
Definition ready : gmap string string :=
  list_to_map
    [ ("stacked", "stacked"); ("maker", "maker"); ("maker_fov", "maker_fov");
      ("maker_safe_mask", "maker_safe_mask"); ("offset_max", "offset_max");
      ("observations", "observations") ].



End Stub.

(* ===================================================================== *)
(** ** sed_fitting: the flux-point table handed to the fits *)
(* ===================================================================== *)

Module SedFitting.

(** Table columns hold IEEE 754 binary64 numbers. *)
Definition prec : Z := 53.
Definition emax : Z := 1024.

Definition fadd (x y : spec_float) : spec_float := SFadd prec emax x y.
Definition fmul (x y : spec_float) : spec_float := SFmul prec emax x y.

(** The literal [0.5], that is 2^52 * 2^-53. *)
Definition half : spec_float := S754_finite false 4503599627370496 (-53).


(** [np.isfinite] *)
Definition isfinite (x : spec_float) : bool :=
  match x with
  | S754_zero _ | S754_finite _ _ _ => true
  | S754_infinity _ | S754_nan => false
  end.

Abbreviation column := (list spec_float).

(** A table: its columns by name, all of one length. *)
Abbreviation table := (gmap string column).

(** [a + b] on columns, element by element. *)
Definition col_add (a b : column) : column := zip_with fadd a b.

(** [c * a] for a number [c] and a column [a]. *)
Definition col_scale (c : spec_float) (a : column) : column := List.map (fmul c) a.

Definition col_isfinite (a : column) : list bool := List.map isfinite a.

(** [a[mask]]: the entries of [a] where [mask] holds. *)
Fixpoint select {A} (mask : list bool) (a : list A) : list A :=
  match mask, a with
  | true :: mask', x :: a' => x :: select mask' a'
  | false :: mask', _ :: a' => select mask' a'
  | _, _ => []
  end.

(** [t[mask]]: the rows of [t] where [mask] holds. *)
Definition select_rows (mask : list bool) (t : table) : table := select mask <$> t.

(** The mask the cell names [is_ul]: where [dnde_err] is finite. *)
Definition is_ul (errn errp : column) : list bool :=
  col_isfinite (col_scale half (col_add errn errp)).

(** The cell [stack_flux_points] on the stacked table [t]:
<<
    t["dnde_err"] = 0.5 * (t["dnde_errn"] + t["dnde_errp"])
    is_ul = np.isfinite(t["dnde_err"])
    flux_points = FluxPoints(t[is_ul])
>>
    [None] is the [KeyError] of a missing column. *)
Definition drop_upper_limits (t : table) : option table :=
  errn ← t !! "dnde_errn";
  errp ← t !! "dnde_errp";
  let t1 := <["dnde_err" := col_scale half (col_add errn errp)]> t in
  err ← t1 !! "dnde_err";
  Some (select_rows (col_isfinite err) t1).

(** The number 1, that is 2^52 * 2^-52. *)
Definition one : spec_float := S754_finite false 4503599627370496 (-52).

(** A stacked table of three flux points: a measurement, and two upper
    limits without errors. *)
Definition three_points : table :=
  list_to_map
    [ ("dnde", [one; one; one]);
      ("dnde_errn", [one; S754_nan; one]);
      ("dnde_errp", [one; one; S754_nan]) ].


End SedFitting.

(* ===================================================================== *)
(** ** analysis_2: saving the stacked dataset *)
(* ===================================================================== *)

Module Save.

Section Model.

(** What a file holds. *)
Context {content : Type}.

Inductive node :=
| Dir
| File (c : content).

(** The file system below the working directory, by relative path. *)
#[local] Abbreviation fs := (gmap string node).

Inductive os_error :=
| FileExistsError
| FileNotFoundError
| IsADirectoryError
| NotADirectoryError.

Definition join (dir file : string) : string := dir +:+ "/" +:+ file.

(** [Path(p).mkdir(exist_ok=...)] for [p] directly below the working
    directory: an existing directory is accepted only with [exist_ok], an
    existing file never. *)
Definition mkdir (p : string) (exist_ok : bool) (f : fs) : os_error + fs :=
  match f !! p with
  | None => inr (<[p := Dir]> f)
  | Some Dir => if exist_ok then inr f else inl FileExistsError
  | Some (File _) => inl FileExistsError
  end.

(** Modelled from the spec: [MapDataset.write] is library code outside the
    sources; it writes the stacked dataset products to a file on disk, and
    with [overwrite] replaces a file already there. *)
Definition write (dir file : string) (c : content) (overwrite : bool) (f : fs)
  : os_error + fs :=
  match f !! dir with
  | None => inl FileNotFoundError
  | Some (File _) => inl NotADirectoryError
  | Some Dir =>
      match f !! join dir file with
      | None => inr (<[join dir file := File c]> f)
      | Some (File _) =>
          if overwrite then inr (<[join dir file := File c]> f) else inl FileExistsError
      | Some Dir => inl IsADirectoryError
      end
  end.

Definition output_dir : string := "analysis_2".
Definition output_file : string := "crab-stacked-dataset.fits.gz".

(** The two save cells, for the products [c] of [stacked]:
<<
    path = Path("analysis_2")
    path.mkdir(exist_ok=True)
    filename = path / "crab-stacked-dataset.fits.gz"
    stacked.write(filename, overwrite=True)
>> *)
Definition save_with (exist_ok overwrite : bool) (c : content) (f : fs) : os_error + fs :=
  match mkdir output_dir exist_ok f with
  | inl e => inl e
  | inr f1 => write output_dir output_file c overwrite f1
  end.

Definition save : content -> fs -> os_error + fs := save_with true true.

End Model.

Arguments node : clear implicits.

Abbreviation fs content := (gmap string (node content)).

(** A working directory in which the notebook has been run before. *)
Definition run_before : fs string :=
  list_to_map
    [ ("analysis_2", Dir);
      ("analysis_2/crab-stacked-dataset.fits.gz", File "the dataset of the last run") ].

End Save.

(* ===================================================================== *)
(** ** sed_fitting: the shape of flux-point tables *)
(* ===================================================================== *)

Module FluxTable.

Import SedFitting.

(** Every column of the table has [n] rows. *)
Definition rectangular (n : nat) (t : table) : Prop :=
  forall k col, t !! k = Some col -> length col = n.

(** The number of rows a mask keeps. *)
Fixpoint kept (mask : list bool) : nat :=
  match mask with
  | [] => 0
  | true :: mask' => S (kept mask')
  | false :: mask' => kept mask'
  end.

(** The largest binary64 number, (2^53 - 1) * 2^971. *)
Definition largest : spec_float := S754_finite false 9007199254740991 971.

(** A table of two measured points. *)
Definition measured : table :=
  list_to_map
    [ ("e_ref", [one; one]);
      ("dnde_errn", [one; one]);
      ("dnde_errp", [one; one]) ].

End FluxTable.

(* ===================================================================== *)
(** ** analysis_2: a reduction loop that an exception ends *)
(* ===================================================================== *)

Module Abort.

Import Sem.

Section Shapes.

Context {value exn : Type}.

(** No call of the segment stacked a dataset: a call of [stack], if there
    is one, was answered by an exception. *)
Definition not_stacked (seg : list (method_call value exn)) : Prop :=
  Forall (fun c => method_name c = "stack" -> exists e, answer c = inl e) seg.

(** The method calls of a pass that an exception ended: a beginning of the
    calls of a pass, without a dataset stacked. *)
Definition aborted (stacked maker maker_fov maker_safe_mask : value)
  (seg : list (method_call value exn)) : Prop :=
  List.map call_name seg `prefix_of` iteration_names stacked maker maker_fov maker_safe_mask /\
  not_stacked seg.

End Shapes.

(** The background fit fails once 25 requests have been answered: in the pass for the
    second of the two observations. *)
Definition second_fit_fails : library string string nat :=
  {| build := Stub.text;
     respond := fun r w =>
       match r with
       | RCall _ (Some ("maker_fov", "run")) _ =>
           if Nat.leb 25 w then (inl "ValueError", S w) else (inr (Stub.describe r), S w)
       | _ => (inr (Stub.describe r), S w)
       end;
     items := fun _ => ["obs 23523"; "obs 23526"];
     truth := fun _ => true |}.

End Abort.

(* ===================================================================== *)
(** ** The names a run asks the builtins for *)
(* ===================================================================== *)

Module Names.

Import Sem.

Section Lookups.

Context {value exn world : Type}.





End Lookups.

End Names.

(* ===================================================================== *)
(** ** The requests of a cell, one after the other *)
(* ===================================================================== *)

Module Flow.

Import Sem.

Section Logs.

Context {value exn world : Type} (L : library value exn world).

(** [wpt m Q n t]: from any state with namespace [n] and log [t], [m] ends
    with a result, a namespace and a log that satisfy [Q]. *)
Definition wpt {A} (m : M value exn world A)
  (Q : result value exn A -> gmap string value -> list (event value exn) -> Prop)
  (n : gmap string value) (t : list (event value exn)) : Prop :=
  forall st, ns st = n -> tr st = t -> Q (m st).1 (ns (m st).2) (tr (m st).2).

(** The log of the two cells that save the stacked dataset, when no
    request raises: [Path] is called, [mkdir] is called on the path it
    returned, the file name is made from that path, and [write] is called
    on [stacked] with the file name. *)
Definition save_log (Path stacked p mkdir made filename write written : value)
  : list (event value exn) :=
  [ (RCall Path None [(None, build L (BStr "analysis_2") [])], inr p);
    (RGetAttr p "mkdir", inr mkdir);
    (RCall mkdir (Some (p, "mkdir")) [(Some "exist_ok", build L (BBool true) [])], inr made);
    (RBinOp Div p (build L (BStr "crab-stacked-dataset.fits.gz") []), inr filename);
    (RGetAttr stacked "write", inr write);
    (RCall write (Some (stacked, "write"))
       [(None, filename); (Some "overwrite", build L (BBool true) [])], inr written) ].

(** The log of the cell that fits the current model, when no request
    raises: the dataset is built from [model] and [flux_points], the fit
    from a list that holds this dataset alone, and [run] is called on the
    fit. *)
Definition fit_log (FluxPointsDataset model flux_points Fit d f run r : value)
  : list (event value exn) :=
  [ (RCall FluxPointsDataset None [(None, model); (None, flux_points)], inr d);
    (RCall Fit None [(None, build L BList [d])], inr f);
    (RGetAttr f "run", inr run);
    (RCall run (Some (f, "run")) [], inr r) ].

End Logs.

(** Namespaces in which the save cells and a fit can start. *)
Definition before_save : gmap string string :=
  list_to_map [ ("Path", "Path"); ("stacked", "stacked") ].

Definition before_fit : gmap string string :=
  list_to_map
    [ ("FluxPointsDataset", "FluxPointsDataset"); ("model", "model");
      ("flux_points", "flux_points"); ("Fit", "Fit") ].

End Flow.

(* ===================================================================== *)
(** ** The phases of a build: install, script, after_success *)
(* ===================================================================== *)

Module Lifecycle.

Import Travis.

(** The operating system of a job: the entry's own, or the top-level
    [os: - linux]. *)
Definition os_name (j : job) : string :=
  match os j with
  | Some o => o
  | None => "linux"
  end.

(** A line of the [install:] or [after_success:] phase: a command,
    [if $VAR; then body; fi], or
    [if [[ $TRAVIS_OS_NAME == 'name' ]]; then body; fi]. *)
Inductive phase_line :=
| Plain (cmd : string)
| WhenVar (var : string) (body : list string)
| WhenOs (name : string) (body : list string).

Definition install : list phase_line :=
  [ Plain "git clone git://github.com/astropy/ci-helpers.git";
    Plain "source ci-helpers/travis/setup_conda.sh";
    WhenVar "TEST_PACKAGING"
      [ "conda install -n root conda-build astropy Cython click regions pydantic";
        "conda info";
        "conda --version";
        "conda build --version";
        "conda activate root" ];
    WhenOs "linux"
      [ "export DISPLAY=:99.0";
        "sh -e /etc/init.d/xvfb start";
        "export QT_API=pyqt" ] ].

Definition after_success : list phase_line :=
  [ WhenVar "TEST_COVERAGE" [ "codecov -X gcov" ] ].

Definition run_phase_line (j : job) (l : phase_line) : list string :=
  match l with
  | Plain c => [c]
  | WhenVar x body => run_line j (IfVar x body)
  | WhenOs o body => if String.eqb (os_name j) o then body else []
  end.

Definition run_phase (j : job) (p : list phase_line) : list string :=
  flat_map (run_phase_line j) p.

(** The commands of a build whose script succeeds: the three phases in
    their order. *)
Definition build (j : job) : list string :=
  run_phase j install ++ run_script j ++ run_phase j after_success.

Definition pip_install : string := "pip install -e .".

Definition download : list string :=
  [ "export GAMMAPY_DATA=${HOME}/gammapy-data";
    pip_install;
    "gammapy download datasets --out=$GAMMAPY_DATA --tests --silent" ].

(** The job runs the command [c] at some point of its build. *)
Definition runs (j : job) (c : string) : bool := Static.mem c (build j).

Definition has_cmd (j : job) (c : string) : bool :=
  match declared_cmd j with
  | Some c' => String.eqb c c'
  | None => false
  end.

(** The optional steps of a build run in the jobs they are meant for:
    the coverage upload in the job that measures coverage, the
    installation of conda-build in the job that builds the conda package,
    the X server in the jobs on linux. *)
Definition steps_match (j : job) : bool :=
  Bool.eqb (runs j "codecov -X gcov") (has_cmd j "make test-cov") &&
  Bool.eqb (runs j "conda install -n root conda-build astropy Cython click regions pydantic")
           (has_cmd j "python setup.py bdist_conda") &&
  Bool.eqb (runs j "sh -e /etc/init.d/xvfb start") (String.eqb (os_name j) "linux").

End Lifecycle.

(* ===================================================================== *)
(** ** environment-dev.yml and the packages the build jobs install *)
(* ===================================================================== *)

Module Environment.

Import Travis.

Definition name : string := "gammapy-dev".

Definition channels : list string := [ "conda-forge"; "sherpa" ].

Definition dependencies : list string :=
  [ "python==3.7"; "pip"; "ipython"; "jupyter"; "jupyterlab"; "cython"; "numpy";
    "pandas"; "astropy"; "regions"; "click"; "pyyaml"; "scipy"; "matplotlib";
    "healpy"; "reproject"; "sherpa"; "iminuit";
    "pytest"; "pytest-cov"; "pytest-xdist"; "pytest-astropy"; "sphinx"; "pandoc";
    "pylint"; "flake8"; "black"; "isort"; "setuptools_scm"; "sphinx-astropy";
    "sphinx-gallery"; "sphinx_rtd_theme"; "nbsphinx"; "sphinx-click"; "pydocstyle";
    "naima"; "numdifftools"; "twine"; "parfive"; "yamllint"; "pydantic" ].

Definition dollar : Ascii.ascii := Ascii.ascii_of_nat 36.
Definition less : Ascii.ascii := Ascii.ascii_of_nat 60.
Definition equals : Ascii.ascii := Ascii.ascii_of_nat 61.
Definition greater : Ascii.ascii := Ascii.ascii_of_nat 62.

(** The name of the package a requirement asks for: what precedes a
    version constraint. *)
Fixpoint package (req : string) : string :=
  match req with
  | EmptyString => EmptyString
  | String c s' =>
      if Ascii.eqb c equals || Ascii.eqb c less || Ascii.eqb c greater then EmptyString
      else String c (package s')
  end.

Definition lower_ascii (c : Ascii.ascii) : Ascii.ascii :=
  let k := Ascii.nat_of_ascii c in
  if Nat.leb 65 k && Nat.leb k 90 then Ascii.ascii_of_nat (k + 32) else c.

(** Package names are compared without regard to letter case. *)
Fixpoint lower (s : string) : string :=
  match s with
  | EmptyString => EmptyString
  | String c s' => String (lower_ascii c) (lower s')
  end.

(** The environment file lists the package [p]. *)
Definition provides (p : string) : bool :=
  Static.mem (lower p) (List.map (fun r => lower (package r)) dependencies).

(** The words of a job's value, a word [$VAR] replaced by the words of
    [VAR] in [env: global:]. *)
Definition expand (v : string) : list string :=
  flat_map (fun wd =>
    match wd with
    | String c x =>
        if Ascii.eqb c dollar
        then match lookup_env x env_global with
             | Some g => words g
             | None => []
             end
        else [wd]
    | EmptyString => [wd]
    end) (words v).

Definition variable (j : job) (x : string) : list string :=
  match getenv j x with
  | Some v => expand v
  | None => []
  end.

(** The packages a [conda install] command names: its words after the
    command and the option [-n] with the environment's name. *)
Definition conda_install (cmd : string) : list string :=
  match words cmd with
  | "conda" :: "install" :: "-n" :: _ :: packages => packages
  | "conda" :: "install" :: packages => packages
  | _ => []
  end.

(** The packages that the commands of the install phase name for a job. *)
Definition installed_by_phase (j : job) : list string :=
  flat_map conda_install (Lifecycle.run_phase j Lifecycle.install).

(** The packages the configuration names for a job: those of the two
    dependency variables, which the helper scripts install with conda and
    with pip, and those of the install phase's own [conda install].  What
    the helper scripts and [pip install -e .] install besides is decided
    outside the configuration. *)
Definition requirements (j : job) : list string :=
  variable j "CONDA_DEPENDENCIES" ++ variable j "PIP_DEPENDENCIES" ++
  installed_by_phase j.

(** The packages named for a job that the environment file does not list. *)
Definition missing (j : job) : list string :=
  filter (fun p => negb (provides p)) (requirements j).

End Environment.

(* ===================================================================== *)
(** ** The world a notebook finds *)
(* ===================================================================== *)

Module Worlds.

Import Sem.

Section Relations.

Context {value exn world : Type} (L : library value exn world).




End Relations.


Definition written (r : request string) : option string :=
  match r with
  | RCall _ (Some (_, "write")) ((_, p) :: _) => Some p
  | _ => None
  end.




End Worlds.

(* ===================================================================== *)
(** * Properties *)
(* ===================================================================== *)

Import Static.

(** ** The workflow of the notebooks *)

Lemma steps_analysis_2 : steps analysis_2 = workflow.
Proof. vm_compute. reflexivity. Qed.

Lemma steps_sed_fitting : steps sed_fitting = three_fits.
Proof. vm_compute. reflexivity. Qed.

(** C1, as stated, fails: not every notebook performs steps (a) to (g);
    [sed_fitting] opens no data store. *)
Lemma C1_not_every_notebook :
  ~ (forall nb, In nb notebooks -> in_order workflow (steps nb) = true).
Proof.
  intros H.
  assert (Hsed : In sed_fitting notebooks) by (right; left; reflexivity).
  apply H in Hsed. rewrite steps_sed_fitting in Hsed.
  vm_compute in Hsed. discriminate Hsed.
Qed.

(** C1, amended: [analysis_2] is a script without branches whose steps are
    exactly (a) to (g) in this order, around its one loop; [sed_fitting] has
    no loop, none of the steps (a) to (d) and computes no flux points: it
    starts by loading three source catalogs and, three times, gives a model
    to a dataset of flux points, runs a fit and plots the flux points. *)
Theorem C1_workflow :
  steps analysis_2 = workflow /\
  count_loops analysis_2 = 1 /\
  has_branches analysis_2 = false /\
  steps sed_fitting = three_fits /\
  count_loops sed_fitting = 0 /\
  has_branches sed_fitting = false /\
  take 3 (calls sed_fitting) =
    ["SOURCE_CATALOGS[3fgl]"; "SOURCE_CATALOGS[3fhl]"; "SOURCE_CATALOGS[gamma-cat]"] /\
  Forall (fun s => ~ In s (steps sed_fitting))
    [OpenDataStore; SelectObservations; MakeGeometry; ReduceAndStack; ComputeFluxPoints].
Proof.
  rewrite steps_analysis_2, steps_sed_fitting.
  repeat split; try (vm_compute; reflexivity).
  repeat constructor; unfold three_fits; simpl; intuition discriminate.
Qed.

(** ** The build matrix *)

Module BuildMatrix.

Import Travis.

Lemma declared_cmd_runs (j : job) (c : string) :
  declared_cmd j = Some c -> runs_declared_cmd j.
Proof.
  intros Hc. exists c. unfold declared_cmd in Hc.
  assert (Hget : getenv j "CMD" = Some c) by (unfold getenv; rewrite Hc; reflexivity).
  split; [exact Hc|]. split.
  - unfold script_cmd, run_line. rewrite Hget. reflexivity.
  - unfold run_script, script. simpl flat_map. rewrite Hget.
    rewrite app_nil_r, !app_assoc. apply last_snoc.
Qed.

Lemma other_jobs_run_declared_cmd :
  Forall runs_declared_cmd
    [ main_test; macos_tests; no_optional_deps; no_gammapy_data; build_docs;
      conda_build; astropy_dev; test_notebooks; test_scripts ].
Proof.
  repeat constructor; eapply declared_cmd_runs; reflexivity.
Qed.

(** C2 at the job "Test with Sherpa dev": the entry sets [SETUP_CMD], not
    [CMD], so the script's [$CMD] expands to nothing and the job runs no
    test command, while the claim holds of the nine other entries. *)
Theorem C2_sherpa_dev_runs_no_command :
  In sherpa_dev matrix_include /\
  declared_cmd sherpa_dev = None /\
  lookup_env "SETUP_CMD" (env sherpa_dev) = Some "make test" /\
  script_cmd sherpa_dev = [] /\
  last (run_script sherpa_dev) = Some "pip install -e ." /\
  ~ runs_declared_cmd sherpa_dev /\
  Forall runs_declared_cmd
    [ main_test; macos_tests; no_optional_deps; no_gammapy_data; build_docs;
      conda_build; astropy_dev; test_notebooks; test_scripts ].
Proof.
  split; [unfold matrix_include; simpl; tauto|].
  repeat split; try reflexivity.
  - intros (c & Hc & _). discriminate Hc.
  - exact other_jobs_run_declared_cmd.
Qed.

End BuildMatrix.

(** ** Files read and written by analysis_2 *)

(** A call of an entry point that is not listed is reported, whatever its
    receiver and arguments. *)
Lemma unlisted_call_reported (paths : list (string * string)) (opened : list string)
  (f : expr) (args : list expr) :
  kind_of_entry f = Unlisted ->
  In (Unclassified (entry_of f)) (fs_expr paths opened (Call f args)).
Proof.
  intros Hk. cbn [fs_expr]. apply in_or_app. right. apply in_or_app. right.
  unfold fs_call. rewrite Hk. left. reflexivity.
Qed.

(** A reader is reported with the path it is given, or as a call whose
    path is unknown. *)
Lemma reader_call_reported (paths : list (string * string)) (opened : list string)
  (f : expr) (args : list expr) :
  kind_of_entry f = Reader ->
  (exists p, first_arg paths args = Some p /\
             In (ReadPath p) (fs_expr paths opened (Call f args))) \/
  In (UnknownPath (entry_of f)) (fs_expr paths opened (Call f args)).
Proof.
  intros Hk. cbn [fs_expr]. unfold fs_call. rewrite Hk.
  destruct (first_arg paths args) as [p|]; [left; exists p; split; [reflexivity|] | right];
    apply in_or_app; right; apply in_or_app; right; left; reflexivity.
Qed.

(** Text handed to an object by an assignment to an attribute that is not
    listed, and a second path handed to a reader, are reported. *)
Lemma other_paths_are_reported :
  unclassified
    (analysis_2 ++
     [ Code [ (Name "data_store");."hdu_table";."base_dir" <~ Str "/data/elsewhere" ] ]) =
    ["base_dir"] /\
  unknown_paths
    (analysis_2 ++
     [ Code [ Name "other_store" <~
                Call (Name "DataStore");."from_dir"
                  [Str "$GAMMAPY_DATA/hess-dl3-dr1"; Str "/data/hdu-index.fits.gz"] ] ]) =
    ["from_dir"].
Proof. split; vm_compute; reflexivity. Qed.

(** Had [analysis_2] gone on to write a text file, to read one, and to
    make a data store from event files elsewhere, the three calls would be
    reported. *)
Lemma other_files_are_reported :
  unclassified
    (analysis_2 ++
     [ Code [ ExprS (Call (Name "np");."savetxt" [Str "/tmp/table.txt"; Name "total_stat"]);
              Name "table" <~ Call (Name "np");."loadtxt" [Str "/etc/hosts"];
              Name "other_store" <~
                Call (Name "DataStore");."from_events_files"
                  [ListE [Str "/data/events.fits.gz"]] ] ]) =
  ["savetxt"; "loadtxt"; "from_events_files"].
Proof. vm_compute. reflexivity. Qed.


(** ** Computation stated by the notebooks themselves *)

(** C6, as stated, fails: a statement of [sed_fitting] computes on the data
    itself, with arithmetic operators. *)
Lemma C6_local_computation :
  ~ (forall nb, In nb notebooks ->
       forall s, In s (script nb) -> computes_locally s = false).
Proof.
  intros H.
  assert (Hnb : In sed_fitting notebooks) by (right; left; reflexivity).
  specialize (H sed_fitting Hnb dnde_err_assignment).
  assert (Hin : In dnde_err_assignment (script sed_fitting)).
  { vm_compute. repeat (first [left; reflexivity | right]). }
  apply H in Hin. vm_compute in Hin. discriminate Hin.
Qed.

(** C6, amended: the statements that compute on data outside a library
    call are exactly three.  [analysis_2] subtracts the total fit statistic
    from the profile it plots; [sed_fitting] averages the two error columns
    into [dnde_err] and selects the rows where it is finite. *)
Theorem C6_local_computations :
  local_computations analysis_2 = [stat_profile_plot] /\
  local_computations sed_fitting = [dnde_err_assignment; upper_limit_filter].
Proof. split; vm_compute; reflexivity. Qed.

(** ** Induction on expressions and statements *)

Lemma expr_nested_ind (P : expr -> Prop) :
  (forall x, P (Name x)) ->
  (forall n, P (Num n)) ->
  (forall s, P (Str s)) ->
  (forall b, P (BoolC b)) ->
  (forall r a, P r -> P (Attr r a)) ->
  (forall f args, P f -> Forall P args -> P (Call f args)) ->
  (forall k v, P v -> P (Kw k v)) ->
  (forall r i, P r -> P i -> P (Sub_ r i)) ->
  (forall l op r, P l -> P r -> P (BinOp l op r)) ->
  (forall v, P v -> P (Neg v)) ->
  (forall es, Forall P es -> P (ListE es)) ->
  (forall es, Forall P es -> P (TupleE es)) ->
  (forall es, Forall P es -> P (DictE es)) ->
  (forall es, Forall P es -> P (FStr es)) ->
  (forall v spec, P v -> P (Fmt v spec)) ->
  forall e, P e.
Proof.
  intros HName HNum HStr HBool HAttr HCall HKw HSub HBinOp HNeg HList HTuple HDict HFStr HFmt.
  fix IH 1.
  assert (Hall : forall es, Forall P es).
  { induction es as [|e es IHes]; constructor; [apply IH | exact IHes]. }
  intros [x|n|s|b|r a|f args|k v|r i|l op r|v|es|es|es|es|v spec].
  - apply HName.
  - apply HNum.
  - apply HStr.
  - apply HBool.
  - apply HAttr, IH.
  - apply HCall; [apply IH | apply Hall].
  - apply HKw, IH.
  - apply HSub; apply IH.
  - apply HBinOp; apply IH.
  - apply HNeg, IH.
  - apply HList, Hall.
  - apply HTuple, Hall.
  - apply HDict, Hall.
  - apply HFStr, Hall.
  - apply HFmt, IH.
Qed.

(** The same with the receiver of a method call as a further premise. *)
Lemma expr_induction (P : expr -> Prop) :
  (forall x, P (Name x)) ->
  (forall n, P (Num n)) ->
  (forall s, P (Str s)) ->
  (forall b, P (BoolC b)) ->
  (forall r a, P r -> P (Attr r a)) ->
  (forall f args, P f -> (forall r m, f = Attr r m -> P r) -> Forall P args ->
     P (Call f args)) ->
  (forall k v, P v -> P (Kw k v)) ->
  (forall r i, P r -> P i -> P (Sub_ r i)) ->
  (forall l op r, P l -> P r -> P (BinOp l op r)) ->
  (forall v, P v -> P (Neg v)) ->
  (forall es, Forall P es -> P (ListE es)) ->
  (forall es, Forall P es -> P (TupleE es)) ->
  (forall es, Forall P es -> P (DictE es)) ->
  (forall es, Forall P es -> P (FStr es)) ->
  (forall v spec, P v -> P (Fmt v spec)) ->
  forall e, P e.
Proof.
  intros HName HNum HStr HBool HAttr HCall HKw HSub HBinOp HNeg HList HTuple HDict HFStr HFmt.
  set (Q := fun e => P e /\ forall r m, e = Attr r m -> P r).
  assert (HQ : forall e, Q e).
  { assert (Hall : forall es, Forall Q es -> Forall P es).
    { intros es Hes. eapply Forall_impl; [exact Hes|]. intros x [Hx _]. exact Hx. }
    induction e using expr_nested_ind; unfold Q in *;
      (split; [|intros r0 m0 Heq; try discriminate Heq]); intuition eauto.
    injection Heq as -> ->. assumption. }
  intros e. apply HQ.
Qed.

Lemma stmt_induction (P : stmt -> Prop) :
  (forall l, P (Magic l)) ->
  (forall m a, P (Import m a)) ->
  (forall m n a, P (ImportFrom m n a)) ->
  (forall e, P (ExprS e)) ->
  (forall t e, P (Assign t e)) ->
  (forall x it body, Forall P body -> P (For x it body)) ->
  (forall c th el, Forall P th -> Forall P el -> P (If c th el)) ->
  (forall b h, Forall P b -> Forall P h -> P (Try b h)) ->
  (forall c, P (Assert c)) ->
  (forall e, P (Raise e)) ->
  forall s, P s.
Proof.
  intros HMagic HImport HImportFrom HExprS HAssign HFor HIf HTry HAssert HRaise.
  fix IH 1.
  assert (Hall : forall p, Forall P p).
  { induction p as [|s p IHp]; constructor; [apply IH | exact IHp]. }
  intros [l|m a|m n a|e|t e|x it body|c th el|b h|c|e].
  - apply HMagic.
  - apply HImport.
  - apply HImportFrom.
  - apply HExprS.
  - apply HAssign.
  - apply HFor, Hall.
  - apply HIf; apply Hall.
  - apply HTry; apply Hall.
  - apply HAssert.
  - apply HRaise.
Qed.

(** ** Exceptions of the library propagate *)

Section Propagation.

Import Sem.

Context {value exn world : Type} (L : library value exn world).

#[local] Abbreviation M := (M value exn world).

Lemma propagates_ret {A} (a : A) : propagates (ret a : M A).
Proof. intros st Hq. exact Hq. Qed.

Lemma propagates_bind {A B} (m : M A) (k : A -> M B) :
  propagates m -> (forall a, propagates (k a)) -> propagates (bind m k).
Proof.
  intros Hm Hk st Hq. specialize (Hm st Hq). unfold bind.
  destruct (m st) as [[a|e] st']; simpl in *.
  - apply Hk, Hm.
  - exact Hm.
Qed.

Lemma propagates_ask (r : request value) : propagates (ask L r).
Proof.
  intros st Hq. unfold ask.
  destruct (respond L r (wd st)) as [[e|v] w]; simpl.
  - exists (tr st), (r, inl e). auto.
  - apply Forall_app. split; [exact Hq|]. repeat constructor.
Qed.

Lemma propagates_get_name (x : string) : propagates (get_name L x).
Proof.
  intros st Hq. unfold get_name.
  destruct (ns st !! x); [exact Hq | apply propagates_ask, Hq].
Qed.

Lemma propagates_set_name (x : string) (v : value) : propagates (set_name x v : M unit).
Proof. intros st Hq. exact Hq. Qed.

Lemma propagates_for_each (body : value -> M unit) (vs : list value) :
  (forall v, propagates (body v)) -> propagates (for_each body vs).
Proof.
  intros Hbody. induction vs as [|v vs IH]; simpl.
  - apply propagates_ret.
  - apply propagates_bind; [apply Hbody | intros _; exact IH].
Qed.

Lemma propagates_eval_list (es : list expr) :
  Forall (fun e => propagates (eval L e)) es -> propagates (eval_list L es).
Proof.
  induction 1 as [|e es He Hes IH]; simpl.
  - apply propagates_ret.
  - apply propagates_bind; [exact He|]. intros v.
    apply propagates_bind; [exact IH|]. intros vs. apply propagates_ret.
Qed.

Lemma propagates_eval_args (es : list expr) :
  Forall (fun e => propagates (eval L e)) es -> propagates (eval_args L es).
Proof.
  induction 1 as [|e es He Hes IH]; simpl.
  - apply propagates_ret.
  - assert (Hrest : forall o : option string, propagates
      (bind (eval L e) (fun v => bind (eval_args L es) (fun vs => ret ((o, v) :: vs))))).
    { intros o. apply propagates_bind; [exact He|]. intros v.
      apply propagates_bind; [exact IH|]. intros vs. apply propagates_ret. }
    destruct e; apply Hrest.
Qed.

Lemma propagates_eval (e : expr) : propagates (eval L e).
Proof.
  induction e as [x|n|s|b|r a IHr|f args IHf IHrecv IHargs|k v IHv|r i IHr IHi
                  |l op r IHl IHr|v IHv|es IHes|es IHes|es IHes|es IHes|v spec IHv]
    using expr_induction.
  - apply propagates_get_name.
  - apply propagates_ret.
  - apply propagates_ret.
  - apply propagates_ret.
  - simpl. apply propagates_bind; [exact IHr | intros; apply propagates_ask].
  - assert (Hargs := propagates_eval_args args IHargs).
    assert (Hplain : propagates
      (bind (eval L f) (fun fv => bind (eval_args L args) (fun avs => ask L (RCall fv None avs))))).
    { apply propagates_bind; [exact IHf|]. intros fv.
      apply propagates_bind; [exact Hargs|]. intros avs. apply propagates_ask. }
    destruct f; try exact Hplain.
    change (propagates
      (bind (eval L f) (fun rv =>
       bind (ask L (RGetAttr rv a)) (fun fv =>
       bind (eval_args L args) (fun avs => ask L (RCall fv (Some (rv, a)) avs)))))).
    apply propagates_bind; [eapply IHrecv; reflexivity|]. intros rv.
    apply propagates_bind; [apply propagates_ask|]. intros fv.
    apply propagates_bind; [exact Hargs|]. intros avs. apply propagates_ask.
  - exact IHv.
  - simpl. apply propagates_bind; [exact IHr|]. intros rv.
    apply propagates_bind; [exact IHi|]. intros iv. apply propagates_ask.
  - simpl. apply propagates_bind; [exact IHl|]. intros lv.
    apply propagates_bind; [exact IHr|]. intros rv. apply propagates_ask.
  - simpl. apply propagates_bind; [exact IHv|]. intros. apply propagates_ask.
  - change (propagates (bind (eval_list L es) (fun vs => ret (build L BList vs)))).
    apply propagates_bind; [apply propagates_eval_list, IHes|]. intros. apply propagates_ret.
  - change (propagates (bind (eval_list L es) (fun vs => ret (build L BTuple vs)))).
    apply propagates_bind; [apply propagates_eval_list, IHes|]. intros. apply propagates_ret.
  - change (propagates (bind (eval_list L es) (fun vs => ask L (RDict vs)))).
    apply propagates_bind; [apply propagates_eval_list, IHes|]. intros. apply propagates_ask.
  - change (propagates (bind (eval_list L es) (fun vs => ret (build L BJoin vs)))).
    apply propagates_bind; [apply propagates_eval_list, IHes|]. intros. apply propagates_ret.
  - simpl. apply propagates_bind; [exact IHv|]. intros. apply propagates_ask.
Qed.

Lemma propagates_assign (t : expr) (v : value) : propagates (assign L t v).
Proof.
  destruct t; simpl; try apply propagates_ret.
  - apply propagates_set_name.
  - apply propagates_bind; [apply propagates_eval|]. intros rv.
    apply propagates_bind; [apply propagates_ask|]. intros. apply propagates_ret.
  - apply propagates_bind; [apply propagates_eval|]. intros rv.
    apply propagates_bind; [apply propagates_eval|]. intros iv.
    apply propagates_bind; [apply propagates_ask|]. intros. apply propagates_ret.
Qed.

Lemma propagates_block (p : list stmt) :
  Forall (fun s => error_code s = false -> propagates (exec L s)) p ->
  existsb error_code p = false -> propagates (exec_block L p).
Proof.
  induction 1 as [|s p Hs Hp IH]; simpl; intros Hcode.
  - apply propagates_ret.
  - apply orb_false_elim in Hcode as [Hs' Hp'].
    apply propagates_bind; [apply Hs, Hs' | intros _; apply IH, Hp'].
Qed.

Lemma propagates_exec (s : stmt) : error_code s = false -> propagates (exec L s).
Proof.
  induction s as [l|m a|m n a|e|t e|x it body IH|c th el IHth IHel|b h IHb IHh|c|e]
    using stmt_induction; intros Hcode; try discriminate Hcode.
  - simpl. apply propagates_bind; [apply propagates_ask | intros; apply propagates_ret].
  - simpl. apply propagates_bind; [apply propagates_ask | intros; apply propagates_set_name].
  - simpl. apply propagates_bind; [apply propagates_ask | intros; apply propagates_set_name].
  - simpl. apply propagates_bind; [apply propagates_eval | intros; apply propagates_ret].
  - simpl. apply propagates_bind; [apply propagates_eval | intros; apply propagates_assign].
  - change (propagates
      (bind (eval L it) (fun c =>
       bind (ask L (RIter c)) (fun i =>
       for_each (fun v => bind (set_name x v) (fun _ => exec_block L body)) (items L i))))).
    apply propagates_bind; [apply propagates_eval|]. intros c.
    apply propagates_bind; [apply propagates_ask|]. intros i.
    apply propagates_for_each. intros v.
    apply propagates_bind; [apply propagates_set_name|]. intros _.
    apply propagates_block; assumption.
  - change (propagates
      (bind (eval L c) (fun cv =>
       bind (ask L (RTruth cv)) (fun b =>
       if truth L b then exec_block L th else exec_block L el)))).
    simpl in Hcode. apply orb_false_elim in Hcode as [Hth Hel].
    apply propagates_bind; [apply propagates_eval|]. intros cv.
    apply propagates_bind; [apply propagates_ask|]. intros b.
    destruct (truth L b); apply propagates_block; assumption.
Qed.


End Propagation.

(** ** A notebook depends on no variable it has not bound *)

Section Independence.

Import Sem.

Context {value exn world : Type} (L : library value exn world).

#[local] Abbreviation M := (M value exn world).
























End Independence.

(** ** A notebook binds only the names it assigns *)

Section Bindings.

Import Sem.

Context {value exn world : Type} (L : library value exn world).

#[local] Abbreviation M := (M value exn world).

Lemma within_ret {A} (X : list string) (a : A) : binds_within X (ret a : M A).
Proof. intros st x _. reflexivity. Qed.

Lemma within_weaken {A} (X X' : list string) (m : M A) :
  binds_within X m -> incl X X' -> binds_within X' m.
Proof. intros Hm Hi st x Hx. apply Hm. intros Hin. apply Hx, Hi, Hin. Qed.

Lemma within_bind {A B} (X : list string) (m : M A) (k : A -> M B) :
  binds_within X m -> (forall a, binds_within X (k a)) -> binds_within X (bind m k).
Proof.
  intros Hm Hk st x Hx. specialize (Hm st x Hx). unfold bind.
  destruct (m st) as [[a|e] st']; simpl in *.
  - rewrite Hk by exact Hx. exact Hm.
  - exact Hm.
Qed.

Lemma within_ask (X : list string) (r : request value) : binds_within X (ask L r).
Proof.
  intros st x _. unfold ask.
  destruct (respond L r (wd st)) as [[e|v] w]; reflexivity.
Qed.

Lemma within_get_name (X : list string) (y : string) : binds_within X (get_name L y).
Proof.
  intros st x Hx. unfold get_name.
  destruct (ns st !! y); [reflexivity | exact (within_ask X _ st x Hx)].
Qed.

Lemma within_set_name (X : list string) (y : string) (v : value) :
  In y X -> binds_within X (set_name y v : M unit).
Proof.
  intros Hy st x Hx. simpl. apply lookup_insert_ne. intros ->. contradiction.
Qed.

Lemma within_for_each (X : list string) (body : value -> M unit) (vs : list value) :
  (forall v, binds_within X (body v)) -> binds_within X (for_each body vs).
Proof.
  intros Hbody. induction vs as [|v vs IH]; simpl.
  - apply within_ret.
  - apply within_bind; [apply Hbody | intros _; exact IH].
Qed.

Lemma within_catch {A} (X : list string) (m h : M A) :
  binds_within X m -> binds_within X h -> binds_within X (catch m h).
Proof.
  intros Hm Hh st x Hx. specialize (Hm st x Hx). unfold catch.
  destruct (m st) as [[a|e] st']; simpl in *.
  - exact Hm.
  - rewrite Hh by exact Hx. exact Hm.
Qed.

Lemma within_eval_list (X : list string) (es : list expr) :
  Forall (fun e => binds_within X (eval L e)) es -> binds_within X (eval_list L es).
Proof.
  induction 1 as [|e es He Hes IH]; simpl.
  - apply within_ret.
  - apply within_bind; [exact He|]. intros v.
    apply within_bind; [exact IH|]. intros vs. apply within_ret.
Qed.

Lemma within_eval_args (X : list string) (es : list expr) :
  Forall (fun e => binds_within X (eval L e)) es -> binds_within X (eval_args L es).
Proof.
  induction 1 as [|e es He Hes IH]; simpl.
  - apply within_ret.
  - assert (Hrest : forall o : option string, binds_within X
      (bind (eval L e) (fun v => bind (eval_args L es) (fun vs => ret ((o, v) :: vs))))).
    { intros o. apply within_bind; [exact He|]. intros v.
      apply within_bind; [exact IH|]. intros vs. apply within_ret. }
    destruct e; apply Hrest.
Qed.

(** Evaluating an expression binds nothing. *)
Lemma within_eval (X : list string) (e : expr) : binds_within X (eval L e).
Proof.
  induction e as [x|n|s|b|r a IHr|f args IHf IHrecv IHargs|k v IHv|r i IHr IHi
                  |l op r IHl IHr|v IHv|es IHes|es IHes|es IHes|es IHes|v spec IHv]
    using expr_induction.
  - apply within_get_name.
  - apply within_ret.
  - apply within_ret.
  - apply within_ret.
  - simpl. apply within_bind; [exact IHr | intros; apply within_ask].
  - assert (Hargs := within_eval_args X args IHargs).
    assert (Hplain : binds_within X
      (bind (eval L f) (fun fv => bind (eval_args L args) (fun avs => ask L (RCall fv None avs))))).
    { apply within_bind; [exact IHf|]. intros fv.
      apply within_bind; [exact Hargs|]. intros avs. apply within_ask. }
    destruct f; try exact Hplain.
    change (binds_within X
      (bind (eval L f) (fun rv =>
       bind (ask L (RGetAttr rv a)) (fun fv =>
       bind (eval_args L args) (fun avs => ask L (RCall fv (Some (rv, a)) avs)))))).
    apply within_bind; [eapply IHrecv; reflexivity|]. intros rv.
    apply within_bind; [apply within_ask|]. intros fv.
    apply within_bind; [exact Hargs|]. intros avs. apply within_ask.
  - exact IHv.
  - simpl. apply within_bind; [exact IHr|]. intros rv.
    apply within_bind; [exact IHi|]. intros iv. apply within_ask.
  - simpl. apply within_bind; [exact IHl|]. intros lv.
    apply within_bind; [exact IHr|]. intros rv. apply within_ask.
  - simpl. apply within_bind; [exact IHv|]. intros. apply within_ask.
  - change (binds_within X (bind (eval_list L es) (fun vs => ret (build L BList vs)))).
    apply within_bind; [apply within_eval_list, IHes|]. intros. apply within_ret.
  - change (binds_within X (bind (eval_list L es) (fun vs => ret (build L BTuple vs)))).
    apply within_bind; [apply within_eval_list, IHes|]. intros. apply within_ret.
  - change (binds_within X (bind (eval_list L es) (fun vs => ask L (RDict vs)))).
    apply within_bind; [apply within_eval_list, IHes|]. intros. apply within_ask.
  - change (binds_within X (bind (eval_list L es) (fun vs => ret (build L BJoin vs)))).
    apply within_bind; [apply within_eval_list, IHes|]. intros. apply within_ret.
  - simpl. apply within_bind; [exact IHv|]. intros. apply within_ask.
Qed.

Lemma within_assign (t : expr) (v : value) :
  binds_within (binds_target t) (assign L t v).
Proof.
  destruct t; simpl; try apply within_ret.
  - apply within_set_name. left. reflexivity.
  - apply within_bind; [apply within_eval|]. intros rv.
    apply within_bind; [apply within_ask|]. intros. apply within_ret.
  - apply within_bind; [apply within_eval|]. intros rv.
    apply within_bind; [apply within_eval|]. intros iv.
    apply within_bind; [apply within_ask|]. intros. apply within_ret.
Qed.

Lemma within_block (p : list stmt) :
  Forall (fun s => binds_within (assigns s) (exec L s)) p ->
  binds_within (flat_map assigns p) (exec_block L p).
Proof.
  induction 1 as [|s p Hs Hp IH]; simpl.
  - apply within_ret.
  - apply within_bind.
    + eapply within_weaken; [exact Hs | apply incl_appl, incl_refl].
    + intros _. eapply within_weaken; [exact IH | apply incl_appr, incl_refl].
Qed.

Lemma within_exec (s : stmt) : binds_within (assigns s) (exec L s).
Proof.
  induction s as [l|m a|m n a|e|t e|x it body IH|c th el IHth IHel|b h IHb IHh|c|e]
    using stmt_induction.
  - simpl. apply within_bind; [apply within_ask | intros; apply within_ret].
  - simpl. apply within_bind; [apply within_ask|]. intros. apply within_set_name. left. reflexivity.
  - simpl. apply within_bind; [apply within_ask|]. intros. apply within_set_name. left. reflexivity.
  - simpl. apply within_bind; [apply within_eval | intros; apply within_ret].
  - simpl. apply within_bind; [apply within_eval | intros; apply within_assign].
  - change (binds_within (x :: flat_map assigns body)
      (bind (eval L it) (fun c =>
       bind (ask L (RIter c)) (fun i =>
       for_each (fun v => bind (set_name x v) (fun _ => exec_block L body)) (items L i))))).
    apply within_bind; [apply within_eval|]. intros c.
    apply within_bind; [apply within_ask|]. intros i.
    apply within_for_each. intros v.
    apply within_bind; [apply within_set_name; left; reflexivity|]. intros _.
    eapply within_weaken; [apply within_block, IH | apply incl_tl, incl_refl].
  - change (binds_within (flat_map assigns th ++ flat_map assigns el)
      (bind (eval L c) (fun cv =>
       bind (ask L (RTruth cv)) (fun b =>
       if truth L b then exec_block L th else exec_block L el)))).
    apply within_bind; [apply within_eval|]. intros cv.
    apply within_bind; [apply within_ask|]. intros b.
    destruct (truth L b).
    + eapply within_weaken; [apply within_block, IHth | apply incl_appl, incl_refl].
    + eapply within_weaken; [apply within_block, IHel | apply incl_appr, incl_refl].
  - change (binds_within (flat_map assigns b ++ flat_map assigns h)
      (catch (exec_block L b) (exec_block L h))).
    apply within_catch.
    + eapply within_weaken; [apply within_block, IHb | apply incl_appl, incl_refl].
    + eapply within_weaken; [apply within_block, IHh | apply incl_appr, incl_refl].
  - change (binds_within []
      (bind (eval L c) (fun cv =>
       bind (ask L (RTruth cv)) (fun b =>
       if truth L b then skip else throw AssertionError)))).
    apply within_bind; [apply within_eval|]. intros cv.
    apply within_bind; [apply within_ask|]. intros b.
    destruct (truth L b); [apply within_ret|]. intros st x _. reflexivity.
  - simpl. apply within_bind; [apply within_eval|]. intros v st x _. reflexivity.
Qed.


End Bindings.

(** ** Independence of the notebooks *)





(** *** A property of every step is a property of the run *)

Section Lifting.

Import Sem.

Context {value exn world : Type} (L : library value exn world).

#[local] Abbreviation M := (M value exn world).

Variable P : forall A : Type, M A -> Prop.

Hypothesis P_ret : forall A (a : A), P A (ret a).
Hypothesis P_bind : forall A A' (m : M A) (k : A -> M A'),
  P A m -> (forall a, P A' (k a)) -> P A' (bind m k).
Hypothesis P_catch : forall A (m h : M A), P A m -> P A h -> P A (catch m h).
Hypothesis P_throw : forall A (e : error value exn), P A (throw e).
Hypothesis P_set_name : forall x v, P unit (set_name x v).
Hypothesis P_get_name : forall x, P value (get_name L x).
Hypothesis P_ask : forall r, P value (ask L r).










End Lifting.

(** *** Worlds that a notebook cannot tell apart *)

Section WorldsAlike.

Import Sem Worlds.

Context {value exn world : Type} (L : library value exn world).
Context (R : world -> world -> Prop).

#[local] Abbreviation M := (M value exn world).












End WorldsAlike.




(** ** The reduction loop, pass by pass *)

Section ReductionLoop.

Import Sem.

Context {value exn world : Type} (L : library value exn world).

#[local] Abbreviation M := (M value exn world).
#[local] Abbreviation call := (method_call value exn).

Lemma method_calls_app (t1 t2 : list (event value exn)) :
  method_calls (t1 ++ t2) = method_calls t1 ++ method_calls t2.
Proof. unfold method_calls. apply flat_map_app. Qed.

Lemma wp_ret {A} (a : A) Q n c : Q (Ok a) n c -> wp (ret a : M A) Q n c.
Proof. intros H st <- <-. exact H. Qed.

Lemma wp_bind {A B} (m : M A) (k : A -> M B) Q n c :
  wp m (fun r n' c' =>
          match r with
          | Ok a => wp (k a) Q n' c'
          | Error e => Q (Error e) n' c'
          end) n c ->
  wp (bind m k) Q n c.
Proof.
  intros H st Hn Hc. specialize (H st Hn Hc). unfold bind.
  destruct (m st) as [[a|e] st']; simpl in *.
  - apply H; reflexivity.
  - exact H.
Qed.

Lemma wp_mono {A} (m : M A) (Q Q' : result value exn A -> gmap string value -> list call -> Prop)
  n c :
  wp m Q n c -> (forall r n' c', Q r n' c' -> Q' r n' c') -> wp m Q' n c.
Proof. intros H HQ st Hn Hc. apply HQ, H; assumption. Qed.

Lemma wp_ask (r : request value) Q n c :
  (forall a, Q (outcome a) n (c ++ call_of r a)) -> wp (ask L r) Q n c.
Proof.
  intros H st <- <-. unfold ask.
  destruct (respond L r (wd st)) as [a w]. specialize (H a).
  unfold call_of in H. rewrite <- method_calls_app in H.
  destruct a; exact H.
Qed.

Lemma wp_get_bound (x : string) (v : value) Q n c :
  n !! x = Some v -> Q (Ok v) n c -> wp (get_name L x) Q n c.
Proof. intros Hx H st <- <-. unfold get_name. rewrite Hx. exact H. Qed.

Lemma wp_get_name (x : string) Q n c :
  (forall r, Q r n c) -> wp (get_name L x) Q n c.
Proof.
  intros H st Hn Hc. unfold get_name. destruct (ns st !! x) as [v|].
  - subst. apply H.
  - refine (wp_ask (RBuiltin x) Q n c _ st Hn Hc).
    intros a. simpl. rewrite app_nil_r. apply H.
Qed.

Lemma wp_set_name (x : string) (v : value) Q n c :
  Q (Ok tt) (<[x:=v]> n) c -> wp (set_name x v : M unit) Q n c.
Proof. intros H st <- <-. exact H. Qed.

Lemma wp_for_each (body : value -> M unit) (I : list value -> gmap string value -> list call -> Prop)
  Q (vs : list value) n c :
  I vs n c ->
  (forall v rest n' c', I (v :: rest) n' c' ->
     wp (body v) (fun r n'' c'' =>
       match r with
       | Ok _ => I rest n'' c''
       | Error e => Q (Error e) n'' c''
       end) n' c') ->
  (forall n' c', I [] n' c' -> Q (Ok tt) n' c') ->
  wp (for_each body vs) Q n c.
Proof.
  intros HI Hbody Hend. revert n c HI.
  induction vs as [|v vs IH]; intros n c HI; simpl.
  - apply wp_ret, Hend, HI.
  - apply wp_bind. intros st Hn Hc. specialize (Hbody v vs n c HI st Hn Hc).
    destruct (body v st) as [[[]|e] st']; simpl in *.
    + apply IH, Hbody.
    + exact Hbody.
Qed.

Ltac solve_lookup :=
  repeat (rewrite lookup_insert_ne by (intros ?; discriminate));
  first [apply lookup_insert_eq | eassumption].

(** The log so far extends [c] by a beginning of the expected calls. *)
Ltac solve_partial :=
  eexists; split;
    [ first [ rewrite <- ?app_assoc; reflexivity | symmetry; apply app_nil_r ]
    | split;
      [ cbn [map List.map app call_name receiver method_name];
        unfold iteration_names; eexists; reflexivity
      | intros ?; discriminate ] ].

Ltac wp_step :=
  cbv beta iota;
  lazymatch goal with
  | |- wp (bind _ _) _ _ _ => apply wp_bind
  | |- wp (ret _) _ _ _ => apply wp_ret
  | |- wp skip _ _ _ => apply wp_ret
  | |- wp (assign _ (Name _) _) _ _ _ => cbn [assign]
  | |- wp (set_name _ _) _ _ _ => apply wp_set_name
  | |- wp (get_name _ _) _ _ _ =>
      first [ eapply wp_get_bound; [solve_lookup|]
            | apply wp_get_name; intros [?|?] ]
  | |- wp (ask _ _) _ _ _ =>
      apply wp_ask; intros [?|?];
      cbn [outcome call_of method_calls flat_map app]; rewrite ?app_nil_r
  end.

Lemma body_calls (stacked maker maker_fov maker_safe_mask obs : value) n c :
  makers_bound stacked maker maker_fov maker_safe_mask n ->
  n !! "obs" = Some obs ->
  wp (exec_block L reduction_body)
     (fun r n' c' =>
        exists seg, c' = c ++ seg /\
          List.map call_name seg `prefix_of`
            iteration_names stacked maker maker_fov maker_safe_mask /\
          (r = Ok tt ->
             makers_bound stacked maker maker_fov maker_safe_mask n' /\
             iteration_calls stacked maker maker_fov maker_safe_mask obs seg))
     n c.
Proof.
  intros (Hs & Hm & Hf & Hsm) Hobs.
  unfold reduction_body. cbn [exec_block exec eval assign].
  repeat wp_step; try solve_partial.
  eexists. split; [rewrite <- ?app_assoc; reflexivity|].
  split; [reflexivity|]. intros _. split.
  - repeat split; solve_lookup.
  - unfold iteration_calls. repeat eexists.
Qed.

(** The calls of the whole loop: one segment for each observation. *)
Lemma loop_calls (stacked maker maker_fov maker_safe_mask : value)
  (observations : list value) n c :
  makers_bound stacked maker maker_fov maker_safe_mask n ->
  wp (for_each (fun v => bind (set_name "obs" v) (fun _ => exec_block L reduction_body))
               observations)
     (fun r n' c' =>
        exists segs, c' = c ++ concat segs /\
          List.map call_name (concat segs) `prefix_of`
            flat_map (fun _ => iteration_names stacked maker maker_fov maker_safe_mask)
                     observations /\
          (r = Ok tt ->
             Forall2 (iteration_calls stacked maker maker_fov maker_safe_mask)
                     observations segs))
     n c.
Proof.
  revert n c. induction observations as [|obs rest IH]; intros n c Hn.
  - apply wp_ret. exists []. simpl. rewrite app_nil_r.
    split; [reflexivity|]. split; [reflexivity | intros _; constructor].
  - cbn [for_each flat_map].
    apply wp_bind, wp_bind, wp_set_name. cbv beta iota.
    assert (Hn' : makers_bound stacked maker maker_fov maker_safe_mask (<["obs":=obs]> n)).
    { destruct Hn as (H1 & H2 & H3 & H4). repeat split; solve_lookup. }
    eapply wp_mono; [apply (body_calls stacked maker maker_fov maker_safe_mask obs);
                     [exact Hn' | apply lookup_insert_eq]|].
    intros [[]|e] n' c' (seg & -> & Hpre & Hok).
    + destruct (Hok eq_refl) as (Hbound & Hshape).
      eapply wp_mono; [apply IH, Hbound|].
      intros r n'' c'' (segs & -> & Hpres & Hoks).
      exists (seg :: segs). cbn [concat]. rewrite <- app_assoc.
      split; [reflexivity|]. split.
      * rewrite map_app.
        assert (Hnames : List.map call_name seg =
                         iteration_names stacked maker maker_fov maker_safe_mask).
        { destruct Hshape as (? & ? & ? & ? & ? & ? & ? & ->). reflexivity. }
        rewrite Hnames. apply prefix_app, Hpres.
      * intros Hr. constructor; [exact Hshape | apply Hoks, Hr].
    + exists [seg]. cbn [concat]. rewrite app_nil_r.
      split; [reflexivity|]. split; [|intros Hr; discriminate Hr].
      apply prefix_app_r, Hpre.
Qed.

Lemma reduction_loop_propagates : propagates (exec L reduction_loop).
Proof. apply propagates_exec. reflexivity. Qed.

End ReductionLoop.

(** C3: in a run of the reduction loop, whatever the library does, the
    method calls are, for each observation the collection yields and in
    their order, [stacked.cutout], [maker.run] on that cutout and the
    observation, [maker_fov.run] on the dataset made, [maker_safe_mask.run]
    on the dataset fitted and the observation, and [stacked.stack] of the
    dataset masked.  A run that an exception ends has made a beginning of
    this sequence, and a run in which nothing raises ends normally. *)
Theorem C3_reduction_order :
  forall (value exn world : Type) (L : Sem.library value exn world)
         (n : gmap string value) (w0 w1 : world)
         (stacked maker maker_fov maker_safe_mask collection i : value),
    Sem.makers_bound stacked maker maker_fov maker_safe_mask n ->
    n !! "observations" = Some collection ->
    Sem.respond L (Sem.RIter collection) w0 = (inr i, w1) ->
    let out := Sem.exec L reduction_loop {| Sem.ns := n; Sem.wd := w0; Sem.tr := [] |} in
    exists segs,
      Sem.method_calls (Sem.tr out.2) = concat segs /\
      List.map Sem.call_name (concat segs) `prefix_of`
        flat_map (fun _ => Sem.iteration_names stacked maker maker_fov maker_safe_mask)
                 (Sem.items L i) /\
      (out.1 = Sem.Ok tt ->
         Forall2 (Sem.iteration_calls stacked maker maker_fov maker_safe_mask)
                 (Sem.items L i) segs) /\
      (Sem.quiet (Sem.tr out.2) -> out.1 = Sem.Ok tt).
Proof.
  intros value exn world L n w0 w1 stacked maker maker_fov maker_safe_mask collection i
         Hbound Hobs Hiter out.
  assert (Hout : out =
    Sem.for_each (fun v => Sem.bind (Sem.set_name "obs" v)
                             (fun _ => Sem.exec_block L reduction_body))
      (Sem.items L i)
      {| Sem.ns := n; Sem.wd := w1; Sem.tr := [(Sem.RIter collection, inr i)] |}).
  { unfold out, reduction_loop.
    change (Sem.exec L (For "obs" (Name "observations") reduction_body)) with
      (Sem.bind (Sem.get_name L "observations") (fun c =>
       Sem.bind (Sem.ask L (Sem.RIter c)) (fun i =>
       Sem.for_each (fun v => Sem.bind (Sem.set_name "obs" v)
                                (fun _ => Sem.exec_block L reduction_body))
         (Sem.items L i)))).
    unfold Sem.bind at 1. unfold Sem.get_name. cbn [Sem.ns]. rewrite Hobs.
    unfold Sem.bind at 1. unfold Sem.ask. cbn [Sem.wd Sem.tr]. rewrite Hiter.
    reflexivity. }
  pose proof (loop_calls L stacked maker maker_fov maker_safe_mask (Sem.items L i) n []
                Hbound
                {| Sem.ns := n; Sem.wd := w1; Sem.tr := [(Sem.RIter collection, inr i)] |}
                eq_refl eq_refl) as (segs & Hsegs & Hpre & Hok).
  rewrite <- Hout in Hsegs, Hok. exists segs.
  split; [exact Hsegs|]. split; [exact Hpre|]. split; [exact Hok|].
  intros Hquiet.
  pose proof (reduction_loop_propagates L {| Sem.ns := n; Sem.wd := w0; Sem.tr := [] |}
                (Forall_nil_2 _)) as Hprop.
  fold out in Hprop. destruct out as [[[]|err] st]; simpl in *.
  - reflexivity.
  - destruct err as [e| |v]; try contradiction.
    destruct Hprop as (pre & ev & Htr & _ & Hev).
    unfold Sem.quiet in Hquiet. rewrite Htr, Forall_app, Forall_singleton in Hquiet.
    destruct Hquiet as [_ Hq]. congruence.
Qed.

Lemma C3_two_observations :
  let out := Sem.exec Stub.complete reduction_loop
               {| Sem.ns := Stub.ready; Sem.wd := 0; Sem.tr := [] |} in
  exists segs,
    Sem.method_calls (Sem.tr out.2) = concat segs /\
    List.map Sem.call_name (concat segs) `prefix_of`
      flat_map (fun _ => Sem.iteration_names "stacked" "maker" "maker_fov" "maker_safe_mask")
               ["obs 23523"; "obs 23526"] /\
    (out.1 = Sem.Ok tt ->
       Forall2 (Sem.iteration_calls "stacked" "maker" "maker_fov" "maker_safe_mask")
               ["obs 23523"; "obs 23526"] segs) /\
    (Sem.quiet (Sem.tr out.2) -> out.1 = Sem.Ok tt).
Proof.
  apply (C3_reduction_order string string nat Stub.complete Stub.ready 0 1
           "stacked" "maker" "maker_fov" "maker_safe_mask" "observations" "_").
  - repeat split; vm_compute; reflexivity.
  - vm_compute; reflexivity.
  - reflexivity.
Defined.


(** ** sed_fitting: the table handed to the fits *)

Section FluxPointTable.

Import SedFitting.



(** (1 + 1) * 0.5 = 1 *)
Lemma mean_of_ones : fmul half (fadd one one) = one.
Proof. vm_compute. reflexivity. Qed.

Lemma is_ul_cons (a b : spec_float) (errn errp : column) :
  is_ul (a :: errn) (b :: errp) = isfinite (fmul half (fadd a b)) :: is_ul errn errp.
Proof. reflexivity. Qed.




End FluxPointTable.



(** ** analysis_2: saving again *)

Section SaveAgain.

Import Save.

Context {content : Type}.

Lemma dir_is_not_file : output_dir <> join output_dir output_file.
Proof. intros H. vm_compute in H. discriminate H. Qed.

Lemma mkdir_again (f : fs content) :
  f !! output_dir = None \/ f !! output_dir = Some Dir ->
  exists f1, mkdir output_dir true f = inr f1 /\
    f1 !! output_dir = Some Dir /\
    f1 !! join output_dir output_file = f !! join output_dir output_file /\
    (f !! output_dir = Some Dir -> f1 = f).
Proof.
  unfold mkdir. intros [H|H]; rewrite H.
  - exists (<[output_dir := Dir]> f). split; [reflexivity|].
    split; [apply lookup_insert_eq|].
    split; [apply lookup_insert_ne, dir_is_not_file|].
    intros H'. discriminate H'.
  - exists f. auto.
Qed.

Lemma write_over (c : content) (f : fs content) :
  f !! output_dir = Some Dir ->
  f !! join output_dir output_file = None \/
    (exists c0, f !! join output_dir output_file = Some (File c0)) ->
  write output_dir output_file c true f = inr (<[join output_dir output_file := File c]> f).
Proof.
  unfold write. intros Hd [Hf|[c0 Hf]]; rewrite Hd, Hf; reflexivity.
Qed.

End SaveAgain.

(** C10: with the directory [analysis_2] absent or present, and the output
    file absent or present, the two save cells succeed and leave the
    products of [stacked] in the output file; run again, they succeed and
    leave the file system as it is.  Without [exist_ok], or without
    [overwrite], the second run fails. *)
Theorem C10_save_again :
  forall (content : Type) (c : content) (f : Save.fs content),
    f !! Save.output_dir = None \/ f !! Save.output_dir = Some Save.Dir ->
    f !! Save.join Save.output_dir Save.output_file = None \/
      (exists c0, f !! Save.join Save.output_dir Save.output_file = Some (Save.File c0)) ->
    exists f',
      Save.save c f = inr f' /\
      f' !! Save.output_dir = Some Save.Dir /\
      f' !! Save.join Save.output_dir Save.output_file = Some (Save.File c) /\
      Save.save c f' = inr f' /\
      Save.save_with false true c f' = inl Save.FileExistsError /\
      Save.save_with true false c f' = inl Save.FileExistsError.
Proof.
  intros content c f Hdir Hfile.
  destruct (mkdir_again f Hdir) as (f1 & Hmk & Hd1 & Hf1 & _).
  assert (Hw : Save.write Save.output_dir Save.output_file c true f1 =
               inr (<[Save.join Save.output_dir Save.output_file := Save.File c]> f1)).
  { apply write_over; [exact Hd1 | rewrite Hf1; exact Hfile]. }
  set (f' := <[Save.join Save.output_dir Save.output_file := Save.File c]> f1) in *.
  assert (Hd' : f' !! Save.output_dir = Some Save.Dir).
  { unfold f'. rewrite lookup_insert_ne by (apply not_eq_sym, dir_is_not_file). exact Hd1. }
  assert (Hf' : f' !! Save.join Save.output_dir Save.output_file = Some (Save.File c)).
  { apply lookup_insert_eq. }
  exists f'. unfold Save.save, Save.save_with. rewrite Hmk, Hw.
  split; [reflexivity|]. split; [exact Hd'|]. split; [exact Hf'|].
  unfold Save.mkdir. rewrite Hd'. unfold Save.write. rewrite Hd', Hf'.
  split; [|split; reflexivity].
  f_equal. apply insert_id, Hf'.
Qed.

Lemma C10_run_before :
  exists f',
    Save.save "the dataset of this run" Save.run_before = inr f' /\
    f' !! Save.output_dir = Some Save.Dir /\
    f' !! Save.join Save.output_dir Save.output_file =
      Some (Save.File "the dataset of this run") /\
    Save.save "the dataset of this run" f' = inr f' /\
    Save.save_with false true "the dataset of this run" f' = inl Save.FileExistsError /\
    Save.save_with true false "the dataset of this run" f' = inl Save.FileExistsError.
Proof.
  apply (C10_save_again string "the dataset of this run" Save.run_before).
  - right. reflexivity.
  - right. exists "the dataset of the last run". reflexivity.
Defined.

(** ** sed_fitting: more on the cell that drops the upper limits *)

Section FluxTableFacts.

Import SedFitting FluxTable.

Lemma select_length {A} (mask : list bool) (a : list A) :
  length a = length mask -> length (select mask a) = kept mask.
Proof.
  revert a. induction mask as [|b mask IH]; intros [|x a] Hlen; try discriminate Hlen.
  - reflexivity.
  - injection Hlen as Hlen. destruct b; cbn [select kept length]; rewrite IH by exact Hlen;
      reflexivity.
Qed.

Lemma kept_le (mask : list bool) : kept mask <= length mask.
Proof. induction mask as [|[] mask IH]; cbn [kept length]; lia. Qed.

Lemma select_sublist {A} (mask : list bool) (a : list A) : select mask a `sublist_of` a.
Proof.
  revert a. induction mask as [|b mask IH]; intros [|x a]; cbn [select].
  - constructor.
  - apply sublist_nil_l.
  - destruct b; constructor.
  - destruct b; [apply sublist_skip | apply sublist_cons]; apply IH.
Qed.

Lemma mean_length (errn errp : column) :
  length errn = length errp ->
  length (col_scale half (col_add errn errp)) = length errn.
Proof.
  intros H. unfold col_scale, col_add.
  rewrite length_map, length_zip_with. lia.
Qed.

Lemma is_ul_length (errn errp : column) :
  length errn = length errp -> length (is_ul errn errp) = length errn.
Proof.
  intros H. unfold is_ul, col_isfinite. rewrite length_map. apply mean_length, H.
Qed.

(** What the cell returns, when the two error columns are there. *)
Lemma drop_upper_limits_eq (t : table) (errn errp : column) :
  t !! "dnde_errn" = Some errn -> t !! "dnde_errp" = Some errp ->
  drop_upper_limits t =
    Some (select_rows (is_ul errn errp)
            (<["dnde_err" := col_scale half (col_add errn errp)]> t)).
Proof.
  intros Hn Hp. unfold drop_upper_limits. rewrite Hn, Hp. cbn [mbind option_bind].
  rewrite lookup_insert_eq. reflexivity.
Qed.

Lemma drop_upper_limits_inv (t t' : table) :
  drop_upper_limits t = Some t' ->
  exists errn errp,
    t !! "dnde_errn" = Some errn /\ t !! "dnde_errp" = Some errp /\
    t' = select_rows (is_ul errn errp)
           (<["dnde_err" := col_scale half (col_add errn errp)]> t).
Proof.
  intros H. unfold drop_upper_limits in H.
  destruct (t !! "dnde_errn") as [errn|] eqn:Hn; [|discriminate H].
  destruct (t !! "dnde_errp") as [errp|] eqn:Hp; [|discriminate H].
  cbn [mbind option_bind] in H. rewrite lookup_insert_eq in H.
  cbn [mbind option_bind] in H. injection H as <-.
  exists errn, errp. auto.
Qed.

End FluxTableFacts.

Lemma three_points_runs :
  exists t', SedFitting.drop_upper_limits SedFitting.three_points = Some t'.
Proof. eexists. vm_compute. reflexivity. Qed.


Lemma rectangular_after (t t' : SedFitting.table) (n : nat) :
  FluxTable.rectangular n t ->
  SedFitting.drop_upper_limits t = Some t' ->
  exists mask,
    length mask = n /\
    FluxTable.rectangular (FluxTable.kept mask) t' /\
    FluxTable.kept mask <= n.
Proof.
  intros Hrect H. apply drop_upper_limits_inv in H as (errn & errp & Hn & Hp & ->).
  assert (Hln : length errn = n) by (eapply Hrect, Hn).
  assert (Hlp : length errp = n) by (eapply Hrect, Hp).
  assert (Hmask : length (SedFitting.is_ul errn errp) = n).
  { rewrite is_ul_length; congruence. }
  exists (SedFitting.is_ul errn errp). split; [exact Hmask|]. split.
  - intros k col Hk. unfold SedFitting.select_rows in Hk.
    rewrite lookup_fmap in Hk.
    destruct (decide ("dnde_err" = k)) as [<-|Hne].
    + rewrite lookup_insert_eq in Hk. injection Hk as <-.
      apply select_length. rewrite mean_length; congruence.
    + rewrite lookup_insert_ne in Hk by exact Hne.
      destruct (t !! k) as [c|] eqn:Hc; [|discriminate Hk].
      injection Hk as <-. apply select_length. rewrite (Hrect k c Hc). congruence.
  - rewrite <- Hmask. apply kept_le.
Qed.


Lemma three_points_rectangular : FluxTable.rectangular 3 SedFitting.three_points.
Proof.
  intros k col Hk. unfold SedFitting.three_points in Hk. cbn [list_to_map foldr] in Hk.
  repeat (apply lookup_insert_Some in Hk as [[<- <-]|[_ Hk]]; [reflexivity|]).
  rewrite lookup_empty in Hk. discriminate Hk.
Qed.


(** X3: the cell adds the column [dnde_err] and no other; every other
    column of the result is the column of the same name with the masked
    rows removed, the remaining rows in their order. *)
Theorem drop_upper_limits_columns (t t' : SedFitting.table) :
  SedFitting.drop_upper_limits t = Some t' ->
  dom t' = dom t ∪ {["dnde_err"]} /\
  forall k col, k <> "dnde_err" -> t !! k = Some col ->
    exists col', t' !! k = Some col' /\ col' `sublist_of` col.
Proof.
  intros H. apply drop_upper_limits_inv in H as (errn & errp & Hn & Hp & ->).
  unfold SedFitting.select_rows. split.
  - rewrite dom_fmap_L, dom_insert_L. apply (comm_L (∪)).
  - intros k col Hne Hk. exists (SedFitting.select (SedFitting.is_ul errn errp) col).
    split; [|apply select_sublist].
    rewrite lookup_fmap, lookup_insert_ne by (apply not_eq_sym, Hne).
    rewrite Hk. reflexivity.
Qed.

Lemma drop_upper_limits_columns_three_points :
  exists t',
    SedFitting.drop_upper_limits SedFitting.three_points = Some t' /\
    dom t' = dom SedFitting.three_points ∪ {["dnde_err"]} /\
    forall k col, k <> "dnde_err" -> SedFitting.three_points !! k = Some col ->
      exists col', t' !! k = Some col' /\ col' `sublist_of` col.
Proof.
  destruct three_points_runs as [t' Hrun].
  exists t'. split; [exact Hrun|].
  exact (drop_upper_limits_columns SedFitting.three_points t' Hrun).
Defined.

Section FluxTableAgain.

Import SedFitting FluxTable.

Lemma select_zip_with {A B C} (f : A -> B -> C) (mask : list bool) (a : list A) (b : list B) :
  length a = length b ->
  select mask (zip_with f a b) = zip_with f (select mask a) (select mask b).
Proof.
  revert a b. induction mask as [|m mask IH]; intros [|x a] [|y b] Hlen;
    try discriminate Hlen; try reflexivity.
  - destruct m; reflexivity.
  - injection Hlen as Hlen. destruct m; cbn [select zip_with]; rewrite IH by exact Hlen;
      reflexivity.
Qed.

Lemma select_map {A B} (f : A -> B) (mask : list bool) (a : list A) :
  select mask (List.map f a) = List.map f (select mask a).
Proof.
  revert a. induction mask as [|m mask IH]; intros [|x a]; try reflexivity.
  - destruct m; reflexivity.
  - destruct m; cbn [select List.map]; rewrite IH; reflexivity.
Qed.

(** Selecting by the values' own test leaves values that all pass it. *)
Lemma select_own_test {A} (p : A -> bool) (a : list A) :
  List.map p (select (List.map p a) a) = replicate (kept (List.map p a)) true.
Proof.
  induction a as [|x a IH]; [reflexivity|].
  cbn [List.map]. destruct (p x) eqn:Hx; cbn [select kept List.map replicate].
  - rewrite Hx, IH. reflexivity.
  - exact IH.
Qed.

Lemma select_all {A} (a : list A) : select (replicate (length a) true) a = a.
Proof. induction a as [|x a IH]; [reflexivity|]. cbn [length replicate select]. rewrite IH. reflexivity. Qed.

End FluxTableAgain.

(** X4: run on its own result, the cell changes nothing: no row is left to
    drop and [dnde_err] is recomputed to the same column. *)
Theorem drop_upper_limits_idempotent (t t' : SedFitting.table) (n : nat) :
  FluxTable.rectangular n t ->
  SedFitting.drop_upper_limits t = Some t' ->
  SedFitting.drop_upper_limits t' = Some t'.
Proof.
  intros Hrect H.
  destruct (rectangular_after t t' n Hrect H) as (mask0 & _ & Hrect' & _).
  apply drop_upper_limits_inv in H as (errn & errp & Hn & Hp & Ht').
  assert (Hln : length errn = n) by (eapply Hrect, Hn).
  assert (Hlp : length errp = n) by (eapply Hrect, Hp).
  set (mask := SedFitting.is_ul errn errp) in *.
  set (err := SedFitting.col_scale SedFitting.half (SedFitting.col_add errn errp)) in *.
  assert (Hn' : t' !! "dnde_errn" = Some (SedFitting.select mask errn)).
  { rewrite Ht'. unfold SedFitting.select_rows.
    rewrite lookup_fmap, lookup_insert_ne by discriminate. rewrite Hn. reflexivity. }
  assert (Hp' : t' !! "dnde_errp" = Some (SedFitting.select mask errp)).
  { rewrite Ht'. unfold SedFitting.select_rows.
    rewrite lookup_fmap, lookup_insert_ne by discriminate. rewrite Hp. reflexivity. }
  assert (He' : t' !! "dnde_err" = Some (SedFitting.select mask err)).
  { rewrite Ht'. unfold SedFitting.select_rows.
    rewrite lookup_fmap, lookup_insert_eq. reflexivity. }
  assert (Herr : SedFitting.col_scale SedFitting.half
                   (SedFitting.col_add (SedFitting.select mask errn) (SedFitting.select mask errp))
                 = SedFitting.select mask err).
  { unfold err, SedFitting.col_scale, SedFitting.col_add.
    rewrite select_map, select_zip_with by congruence. reflexivity. }
  rewrite (drop_upper_limits_eq t' _ _ Hn' Hp'). f_equal.
  unfold SedFitting.is_ul. rewrite Herr.
  rewrite (insert_id t' "dnde_err" _ He').
  assert (Hmask' : SedFitting.col_isfinite (SedFitting.select mask err) =
                   replicate (FluxTable.kept mask) true).
  { unfold mask, SedFitting.is_ul. fold err. apply select_own_test. }
  rewrite Hmask'.
  assert (Hk : FluxTable.kept mask = FluxTable.kept mask0).
  { rewrite <- (Hrect' _ _ He'). symmetry. apply select_length.
    unfold err, mask. rewrite mean_length, is_ul_length; congruence. }
  apply map_eq. intros k. unfold SedFitting.select_rows. rewrite lookup_fmap.
  destruct (t' !! k) as [col|] eqn:Hcol; [|reflexivity].
  cbn [fmap option_fmap option_map]. f_equal.
  rewrite Hk, <- (Hrect' k col Hcol). apply select_all.
Qed.

Lemma drop_upper_limits_idempotent_three_points :
  exists t',
    SedFitting.drop_upper_limits SedFitting.three_points = Some t' /\
    SedFitting.drop_upper_limits t' = Some t'.
Proof.
  destruct three_points_runs as [t' Hrun].
  exists t'. split; [exact Hrun|].
  exact (drop_upper_limits_idempotent SedFitting.three_points t' 3
           three_points_rectangular Hrun).
Defined.

(** The mean of two errors of which one is not finite is not finite. *)
Lemma not_finite_mean (a b : spec_float) :
  SedFitting.isfinite a = false \/ SedFitting.isfinite b = false ->
  SedFitting.isfinite (SedFitting.fmul SedFitting.half (SedFitting.fadd a b)) = false.
Proof.
  intros [H|H].
  - destruct a as [s|s| |s m e]; try discriminate H;
      destruct b as [s'|s'| |s' m' e']; try reflexivity; destruct s, s'; reflexivity.
  - destruct b as [s'|s'| |s' m' e']; try discriminate H;
      destruct a as [s|s| |s m e]; try reflexivity; destruct s, s'; reflexivity.
Qed.

(** X5: a row is dropped whenever one of its errors is not finite, that is
    NaN or infinite; and finite errors do not save a row: two errors of the
    largest binary64 number have a sum that overflows, and are dropped. *)
Theorem non_finite_errors_dropped (errn errp : SedFitting.column) :
  (forall j a b, errn !! j = Some a -> errp !! j = Some b ->
     SedFitting.isfinite a = false \/ SedFitting.isfinite b = false ->
     SedFitting.is_ul errn errp !! j = Some false) /\
  SedFitting.isfinite FluxTable.largest = true /\
  SedFitting.is_ul [FluxTable.largest] [FluxTable.largest] = [false].
Proof.
  split; [|split; vm_compute; reflexivity].
  revert errp. induction errn as [|a0 errn IH]; intros [|b0 errp] j a b Ha Hb Hnf;
    try (destruct j; discriminate).
  rewrite is_ul_cons. destruct j as [|j]; cbn [lookup list_lookup] in *.
  - injection Ha as ->. injection Hb as ->. rewrite not_finite_mean by exact Hnf. reflexivity.
  - eapply IH; eassumption.
Qed.

Lemma non_finite_errors_dropped_two_points :
  SedFitting.is_ul [SedFitting.one; S754_infinity false] [SedFitting.one; SedFitting.one]
    !! 1 = Some false.
Proof.
  apply (proj1 (non_finite_errors_dropped
                  [SedFitting.one; S754_infinity false] [SedFitting.one; SedFitting.one])
           1 (S754_infinity false) SedFitting.one eq_refl eq_refl).
  left. reflexivity.
Defined.

Lemma fadd_comm (a b : spec_float) : SedFitting.fadd a b = SedFitting.fadd b a.
Proof.
  unfold SedFitting.fadd, SFadd.
  destruct a as [s|s| |s m e], b as [s'|s'| |s' m' e']; try reflexivity;
    try (destruct s, s'; reflexivity).
  rewrite (Z.min_comm e e'), Z.add_comm. reflexivity.
Qed.

(** X6: the two error columns enter symmetrically: exchanging [dnde_errn]
    and [dnde_errp] gives the same [dnde_err] and keeps the same rows. *)
Theorem dnde_err_symmetric (errn errp : SedFitting.column) :
  SedFitting.col_scale SedFitting.half (SedFitting.col_add errn errp) =
  SedFitting.col_scale SedFitting.half (SedFitting.col_add errp errn) /\
  SedFitting.is_ul errn errp = SedFitting.is_ul errp errn.
Proof.
  assert (H : SedFitting.col_add errn errp = SedFitting.col_add errp errn).
  { unfold SedFitting.col_add. revert errp.
    induction errn as [|a errn IH]; intros [|b errp]; try reflexivity.
    cbn [zip_with]. rewrite fadd_comm, IH. reflexivity. }
  unfold SedFitting.is_ul. rewrite H. split; reflexivity.
Qed.

(** X7: a table without upper limits loses no row: if every mean of the two
    errors is finite, the result is the table with the column [dnde_err]
    added. *)
Theorem no_upper_limits_no_change (t : SedFitting.table) (errn errp : SedFitting.column)
  (n : nat) :
  FluxTable.rectangular n t ->
  t !! "dnde_errn" = Some errn ->
  t !! "dnde_errp" = Some errp ->
  Forall (fun x => SedFitting.isfinite x = true)
    (SedFitting.col_scale SedFitting.half (SedFitting.col_add errn errp)) ->
  SedFitting.drop_upper_limits t =
    Some (<["dnde_err" := SedFitting.col_scale SedFitting.half (SedFitting.col_add errn errp)]> t).
Proof.
  intros Hrect Hn Hp Hfin.
  assert (Hln : length errn = n) by (eapply Hrect, Hn).
  assert (Hlp : length errp = n) by (eapply Hrect, Hp).
  rewrite (drop_upper_limits_eq t errn errp Hn Hp). f_equal.
  set (err := SedFitting.col_scale SedFitting.half (SedFitting.col_add errn errp)) in *.
  assert (Hmask : SedFitting.is_ul errn errp = replicate n true).
  { unfold SedFitting.is_ul, SedFitting.col_isfinite. fold err.
    assert (Hlen : length err = n) by (unfold err; rewrite mean_length; congruence).
    rewrite <- Hlen. clear Hlen. induction Hfin as [|x l Hx _ IH]; [reflexivity|].
    cbn [List.map length replicate]. rewrite Hx, IH. reflexivity. }
  rewrite Hmask. apply map_eq. intros k. unfold SedFitting.select_rows. rewrite lookup_fmap.
  destruct (<["dnde_err":=err]> t !! k) as [col|] eqn:Hcol; [|reflexivity].
  cbn [fmap option_fmap option_map]. f_equal.
  assert (Hlen : length col = n).
  { destruct (decide ("dnde_err" = k)) as [<-|Hne].
    - rewrite lookup_insert_eq in Hcol. injection Hcol as <-.
      unfold err. rewrite mean_length; congruence.
    - rewrite lookup_insert_ne in Hcol by exact Hne. eapply Hrect, Hcol. }
  rewrite <- Hlen. apply select_all.
Qed.

Lemma measured_rectangular : FluxTable.rectangular 2 FluxTable.measured.
Proof.
  intros k col Hk. unfold FluxTable.measured in Hk. cbn [list_to_map foldr] in Hk.
  repeat (apply lookup_insert_Some in Hk as [[<- <-]|[_ Hk]]; [reflexivity|]).
  rewrite lookup_empty in Hk. discriminate Hk.
Qed.

Lemma no_upper_limits_no_change_measured :
  SedFitting.drop_upper_limits FluxTable.measured =
    Some (<["dnde_err" := [SedFitting.one; SedFitting.one]]> FluxTable.measured).
Proof.
  apply (no_upper_limits_no_change FluxTable.measured
           [SedFitting.one; SedFitting.one] [SedFitting.one; SedFitting.one] 2
           measured_rectangular eq_refl eq_refl).
  repeat constructor.
Defined.

(** ** analysis_2: the variables the reduction loop binds *)

(** X8: whatever the library does and however the loop ends, it binds no
    variable but [obs], [cutout] and [dataset]: every other variable, among
    them [stacked], the three makers and [observations], holds after the
    loop the object it held before. *)
Theorem reduction_loop_binds :
  forall (value exn world : Type) (L : Sem.library value exn world)
         (st : Sem.state value exn world) (x : string),
    x <> "obs" -> x <> "cutout" -> x <> "dataset" ->
    Sem.ns (Sem.exec L reduction_loop st).2 !! x = Sem.ns st !! x.
Proof.
  intros value exn world L st x Hobs Hcutout Hdataset.
  apply (within_exec L reduction_loop st x).
  cbn [assigns reduction_loop reduction_body flat_map binds_target app In].
  intuition congruence.
Qed.

Lemma reduction_loop_binds_stacked :
  Sem.ns (Sem.exec Stub.complete reduction_loop
            {| Sem.ns := Stub.ready; Sem.wd := 0; Sem.tr := [] |}).2 !! "stacked" =
  Some "stacked".
Proof.
  rewrite (reduction_loop_binds string string nat Stub.complete _ "stacked");
    [reflexivity | discriminate | discriminate | discriminate].
Defined.

(** ** analysis_2: when an exception ends the reduction loop *)

Section LoopAbort.

Import Sem Abort.

Context {value exn world : Type} (L : library value exn world).

#[local] Abbreviation call := (method_call value exn).

Ltac solve_lookup :=
  repeat (rewrite lookup_insert_ne by (intros ?; discriminate));
  first [apply lookup_insert_eq | eassumption].

Ltac wp_step :=
  cbv beta iota;
  lazymatch goal with
  | |- wp (bind _ _) _ _ _ => apply wp_bind
  | |- wp (ret _) _ _ _ => apply wp_ret
  | |- wp skip _ _ _ => apply wp_ret
  | |- wp (assign _ (Name _) _) _ _ _ => cbn [assign]
  | |- wp (set_name _ _) _ _ _ => apply wp_set_name
  | |- wp (get_name _ _) _ _ _ =>
      first [ eapply wp_get_bound; [solve_lookup|]
            | apply wp_get_name; intros [?|?] ]
  | |- wp (ask _ _) _ _ _ =>
      apply wp_ask; intros [?|?];
      cbn [outcome call_of method_calls flat_map app]; rewrite ?app_nil_r
  end.

(** The log so far extends [c] by a pass that has been cut short. *)
Ltac solve_aborted :=
  eexists; split;
    [ first [ rewrite <- ?app_assoc; reflexivity | symmetry; apply app_nil_r ]
    | split;
      [ cbn [map List.map app call_name receiver method_name];
        unfold iteration_names; eexists; reflexivity
      | repeat constructor; cbn [method_name answer]; intros H;
        first [ discriminate H | eexists; reflexivity ] ] ].

Lemma body_outcome (stacked maker maker_fov maker_safe_mask obs : value) n c :
  makers_bound stacked maker maker_fov maker_safe_mask n ->
  n !! "obs" = Some obs ->
  wp (exec_block L reduction_body)
     (fun r n' c' =>
        exists seg, c' = c ++ seg /\
          match r with
          | Ok _ =>
              makers_bound stacked maker maker_fov maker_safe_mask n' /\
              iteration_calls stacked maker maker_fov maker_safe_mask obs seg
          | Error _ => aborted stacked maker maker_fov maker_safe_mask seg
          end)
     n c.
Proof.
  intros (Hs & Hm & Hf & Hsm) Hobs.
  unfold reduction_body. cbn [exec_block exec eval assign].
  repeat wp_step; try solve_aborted.
  eexists. split; [rewrite <- ?app_assoc; reflexivity|]. split.
  - repeat split; solve_lookup.
  - unfold iteration_calls. repeat eexists.
Qed.

(** The loop pass by pass: the passes that ended are complete, and if an
    exception ended the loop, the pass it ended is cut short and the
    observations after it have no calls. *)
Lemma loop_outcome (stacked maker maker_fov maker_safe_mask : value)
  (observations : list value) n c :
  makers_bound stacked maker maker_fov maker_safe_mask n ->
  wp (for_each (fun v => bind (set_name "obs" v) (fun _ => exec_block L reduction_body))
               observations)
     (fun r n' c' =>
        exists done partial, c' = c ++ concat done ++ partial /\
          Forall2 (iteration_calls stacked maker maker_fov maker_safe_mask)
                  (take (length done) observations) done /\
          match r with
          | Ok _ => length done = length observations /\ partial = []
          | Error _ =>
              length done < length observations /\
              aborted stacked maker maker_fov maker_safe_mask partial
          end)
     n c.
Proof.
  revert n c. induction observations as [|obs rest IH]; intros n c Hn.
  - apply wp_ret. exists [], []. cbn [concat app length take]. rewrite app_nil_r.
    split; [reflexivity|]. split; [constructor | split; reflexivity].
  - cbn [for_each].
    apply wp_bind, wp_bind, wp_set_name. cbv beta iota.
    assert (Hn' : makers_bound stacked maker maker_fov maker_safe_mask (<["obs":=obs]> n)).
    { destruct Hn as (H1 & H2 & H3 & H4). repeat split; solve_lookup. }
    eapply wp_mono; [apply (body_outcome stacked maker maker_fov maker_safe_mask obs);
                     [exact Hn' | apply lookup_insert_eq]|].
    intros [[]|e] n' c' (seg & -> & Hseg).
    + destruct Hseg as (Hbound & Hshape).
      eapply wp_mono; [apply IH, Hbound|].
      intros r n'' c'' (done & partial & -> & Hdone & Hr).
      exists (seg :: done), partial. cbn [concat length take]. rewrite <- !app_assoc.
      split; [reflexivity|]. split; [constructor; assumption|].
      destruct r as [[]|e].
      * destruct Hr as [Hlen ->]. split; [congruence | reflexivity].
      * destruct Hr as [Hlen Hab]. split; [lia | exact Hab].
    + exists [], seg. cbn [concat app length take].
      split; [reflexivity|]. split; [constructor|]. split; [lia | exact Hseg].
Qed.

End LoopAbort.

(** X9: when an exception ends a run of the reduction loop, the
    observations before the one being reduced have each had their five
    calls, [stack] included; the pass the exception ended has made a
    beginning of its calls and has stacked nothing; the observations after
    it have had no call. *)
Theorem reduction_loop_aborts :
  forall (value exn world : Type) (L : Sem.library value exn world)
         (n : gmap string value) (w0 w1 : world)
         (stacked maker maker_fov maker_safe_mask collection i : value)
         (err : Sem.error value exn),
    Sem.makers_bound stacked maker maker_fov maker_safe_mask n ->
    n !! "observations" = Some collection ->
    Sem.respond L (Sem.RIter collection) w0 = (inr i, w1) ->
    let out := Sem.exec L reduction_loop {| Sem.ns := n; Sem.wd := w0; Sem.tr := [] |} in
    out.1 = Sem.Error err ->
    exists done partial,
      Sem.method_calls (Sem.tr out.2) = concat done ++ partial /\
      length done < length (Sem.items L i) /\
      Forall2 (Sem.iteration_calls stacked maker maker_fov maker_safe_mask)
              (take (length done) (Sem.items L i)) done /\
      Abort.aborted stacked maker maker_fov maker_safe_mask partial.
Proof.
  intros value exn world L n w0 w1 stacked maker maker_fov maker_safe_mask collection i err
         Hbound Hobs Hiter out Herr.
  assert (Hout : out =
    Sem.for_each (fun v => Sem.bind (Sem.set_name "obs" v)
                             (fun _ => Sem.exec_block L reduction_body))
      (Sem.items L i)
      {| Sem.ns := n; Sem.wd := w1; Sem.tr := [(Sem.RIter collection, inr i)] |}).
  { unfold out, reduction_loop.
    change (Sem.exec L (For "obs" (Name "observations") reduction_body)) with
      (Sem.bind (Sem.get_name L "observations") (fun c =>
       Sem.bind (Sem.ask L (Sem.RIter c)) (fun i =>
       Sem.for_each (fun v => Sem.bind (Sem.set_name "obs" v)
                                (fun _ => Sem.exec_block L reduction_body))
         (Sem.items L i)))).
    unfold Sem.bind at 1. unfold Sem.get_name. cbn [Sem.ns]. rewrite Hobs.
    unfold Sem.bind at 1. unfold Sem.ask. cbn [Sem.wd Sem.tr]. rewrite Hiter.
    reflexivity. }
  pose proof (loop_outcome L stacked maker maker_fov maker_safe_mask (Sem.items L i) n []
                Hbound
                {| Sem.ns := n; Sem.wd := w1; Sem.tr := [(Sem.RIter collection, inr i)] |}
                eq_refl eq_refl) as (done & partial & Hcalls & Hdone & Hr).
  rewrite <- Hout in Hcalls, Hr. rewrite Herr in Hr. destruct Hr as [Hlen Hab].
  exists done, partial. auto.
Qed.

Lemma reduction_loop_aborts_second_fit :
  let out := Sem.exec Abort.second_fit_fails reduction_loop
               {| Sem.ns := Stub.ready; Sem.wd := 0; Sem.tr := [] |} in
  exists done partial,
    Sem.method_calls (Sem.tr out.2) = concat done ++ partial /\
    length done < 2 /\
    Forall2 (Sem.iteration_calls "stacked" "maker" "maker_fov" "maker_safe_mask")
            (take (length done) ["obs 23523"; "obs 23526"]) done /\
    Abort.aborted "stacked" "maker" "maker_fov" "maker_safe_mask" partial.
Proof.
  apply (reduction_loop_aborts string string nat Abort.second_fit_fails Stub.ready 0 1
           "stacked" "maker" "maker_fov" "maker_safe_mask" "observations" "_"
           (Sem.Raised "ValueError")).
  - repeat split; vm_compute; reflexivity.
  - vm_compute; reflexivity.
  - reflexivity.
  - vm_compute; reflexivity.
Defined.

(** ** A notebook reads no name before it binds it *)

Section BuiltinLookups.

Import Sem Names.

Context {value exn world : Type} (L : library value exn world).

#[local] Abbreviation M := (M value exn world).

Variable B : list string.




















End BuiltinLookups.



(** ** The requests of the save cells and of a fit *)

Section CellFlow.

Import Sem Flow.

Context {value exn world : Type} (L : library value exn world).

#[local] Abbreviation M := (M value exn world).

Lemma wpt_ret {A} (a : A) Q n t : Q (Ok a) n t -> wpt (ret a : M A) Q n t.
Proof. intros H st <- <-. exact H. Qed.

Lemma wpt_bind {A A'} (m : M A) (k : A -> M A') Q n t :
  wpt m (fun r n' t' =>
           match r with
           | Ok a => wpt (k a) Q n' t'
           | Error e => Q (Error e) n' t'
           end) n t ->
  wpt (bind m k) Q n t.
Proof.
  intros H st Hn Ht. specialize (H st Hn Ht). unfold bind.
  destruct (m st) as [[a|e] st']; simpl in *.
  - apply H; reflexivity.
  - exact H.
Qed.

Lemma wpt_ask (r : request value) Q n t :
  (forall a, Q (outcome a) n (t ++ [(r, a)])) -> wpt (ask L r) Q n t.
Proof.
  intros H st <- <-. unfold ask.
  destruct (respond L r (wd st)) as [a w]. specialize (H a).
  destruct a; exact H.
Qed.

Lemma wpt_get_bound (x : string) (v : value) Q n t :
  n !! x = Some v -> Q (Ok v) n t -> wpt (get_name L x) Q n t.
Proof. intros Hx H st <- <-. unfold get_name. rewrite Hx. exact H. Qed.

Lemma wpt_set_name (x : string) (v : value) Q n t :
  Q (Ok tt) (<[x:=v]> n) t -> wpt (set_name x v : M unit) Q n t.
Proof. intros H st <- <-. exact H. Qed.

End CellFlow.

Ltac flow_lookup :=
  repeat (rewrite lookup_insert_ne by congruence);
  first [apply lookup_insert_eq | eassumption].

Ltac flow_step :=
  cbv beta iota;
  lazymatch goal with
  | |- Flow.wpt (Sem.bind _ _) _ _ _ => apply wpt_bind
  | |- Flow.wpt (Sem.ret _) _ _ _ => apply wpt_ret
  | |- Flow.wpt Sem.skip _ _ _ => apply wpt_ret
  | |- Flow.wpt (Sem.assign _ (Name _) _) _ _ _ => cbn [Sem.assign]
  | |- Flow.wpt (Sem.set_name _ _) _ _ _ => apply wpt_set_name
  | |- Flow.wpt (Sem.get_name _ _) _ _ _ => eapply wpt_get_bound; [flow_lookup|]
  | |- Flow.wpt (Sem.ask _ _) _ _ _ =>
      apply wpt_ask; intros [?|?]; cbn [Sem.outcome app]
  end.

(** The log is a beginning of the expected one, and all of it at a normal
    end. *)
Tactic Notation "flow_leaf" integer(k) :=
  do k eexists; split;
    [ eexists; cbn [List.map fst app]; reflexivity
    | split; intros H; first [discriminate H | reflexivity] ].

(** X11: the two cells that save the stacked dataset, against any library:
    the directory is made on the path object that [Path("analysis_2")]
    returned, with [exist_ok=True]; the file name is that same object
    divided by the file's name; [write] is called on [stacked] with this
    file name and [overwrite=True], and only after [mkdir] has returned.
    A run that an exception ends has made a beginning of these requests. *)
Theorem save_cells_flow :
  forall (value exn world : Type) (L : Sem.library value exn world)
         (n : gmap string value) (w : world) (Path stacked : value),
    n !! "Path" = Some Path ->
    n !! "stacked" = Some stacked ->
    let out := Sem.exec_block L (save_mkdir ++ save_write)
                 {| Sem.ns := n; Sem.wd := w; Sem.tr := [] |} in
    exists p mkdir made filename write written,
      List.map fst (Sem.tr out.2) `prefix_of`
        List.map fst (Flow.save_log L Path stacked p mkdir made filename write written) /\
      (out.1 = Sem.Ok tt ->
         Sem.tr out.2 = Flow.save_log L Path stacked p mkdir made filename write written) /\
      (out.1 = Sem.Ok tt ->
         Sem.ns out.2 = <["filename" := filename]> (<["path" := p]> n)).
Proof.
  intros value exn world L n w Path stacked HP HS out.
  assert (H : Flow.wpt (Sem.exec_block L (save_mkdir ++ save_write))
    (fun r n' t' =>
       exists p mkdir made filename write written,
         List.map fst t' `prefix_of`
           List.map fst (Flow.save_log L Path stacked p mkdir made filename write written) /\
         (r = Sem.Ok tt ->
            t' = Flow.save_log L Path stacked p mkdir made filename write written) /\
         (r = Sem.Ok tt -> n' = <["filename" := filename]> (<["path" := p]> n)))
    n []).
  { unfold save_mkdir, save_write, Flow.save_log.
    cbn [app Sem.exec_block Sem.exec Sem.eval Sem.assign].
    repeat flow_step; flow_leaf 6. }
  exact (H {| Sem.ns := n; Sem.wd := w; Sem.tr := [] |} eq_refl eq_refl).
  Unshelve. all: exact Path.
Qed.

Lemma save_cells_flow_complete :
  let out := Sem.exec_block Stub.complete (save_mkdir ++ save_write)
               {| Sem.ns := Flow.before_save; Sem.wd := 0; Sem.tr := [] |} in
  exists p mkdir made filename write written,
    List.map fst (Sem.tr out.2) `prefix_of`
      List.map fst (Flow.save_log Stub.complete "Path" "stacked"
                      p mkdir made filename write written) /\
    (out.1 = Sem.Ok tt ->
       Sem.tr out.2 = Flow.save_log Stub.complete "Path" "stacked"
                        p mkdir made filename write written) /\
    (out.1 = Sem.Ok tt ->
       Sem.ns out.2 = <["filename" := filename]> (<["path" := p]> Flow.before_save)).
Proof.
  apply (save_cells_flow string string nat Stub.complete Flow.before_save 0 "Path" "stacked");
    vm_compute; reflexivity.
Defined.

(** X12: each of the three fits of [sed_fitting], against any library: the
    dataset is built from the objects that [model] and [flux_points] hold
    at that moment, the fit from a list holding this dataset alone, and the
    result is what [run] returned on that fit; [fitter] is bound anew by
    every fit.  The name of the dataset must not be [Fit], which the cell
    reads after binding it. *)
Theorem run_fit_flow :
  forall (value exn world : Type) (L : Sem.library value exn world)
         (n : gmap string value) (w : world) (dataset result : string)
         (FluxPointsDataset model flux_points Fit : value),
    dataset <> "Fit" ->
    n !! "FluxPointsDataset" = Some FluxPointsDataset ->
    n !! "model" = Some model ->
    n !! "flux_points" = Some flux_points ->
    n !! "Fit" = Some Fit ->
    let out := Sem.exec_block L (run_fit dataset result)
                 {| Sem.ns := n; Sem.wd := w; Sem.tr := [] |} in
    exists d f run r,
      List.map fst (Sem.tr out.2) `prefix_of`
        List.map fst (Flow.fit_log L FluxPointsDataset model flux_points Fit d f run r) /\
      (out.1 = Sem.Ok tt ->
         Sem.tr out.2 = Flow.fit_log L FluxPointsDataset model flux_points Fit d f run r) /\
      (out.1 = Sem.Ok tt ->
         Sem.ns out.2 = <[result := r]> (<["fitter" := f]> (<[dataset := d]> n))).
Proof.
  intros value exn world L n w dataset result FPD model flux_points Fit
         Hname HD HM HP HF out.
  assert (H : Flow.wpt (Sem.exec_block L (run_fit dataset result))
    (fun r0 n' t' =>
       exists d f run r,
         List.map fst t' `prefix_of`
           List.map fst (Flow.fit_log L FPD model flux_points Fit d f run r) /\
         (r0 = Sem.Ok tt -> t' = Flow.fit_log L FPD model flux_points Fit d f run r) /\
         (r0 = Sem.Ok tt -> n' = <[result := r]> (<["fitter" := f]> (<[dataset := d]> n))))
    n []).
  { unfold run_fit, Flow.fit_log.
    cbn [app Sem.exec_block Sem.exec Sem.eval Sem.assign].
    repeat flow_step; flow_leaf 4. }
  exact (H {| Sem.ns := n; Sem.wd := w; Sem.tr := [] |} eq_refl eq_refl).
  Unshelve. all: exact Fit.
Qed.

Lemma run_fit_flow_pwl :
  let out := Sem.exec_block Stub.complete (run_fit "dataset_pwl" "result_pwl")
               {| Sem.ns := Flow.before_fit; Sem.wd := 0; Sem.tr := [] |} in
  exists d f run r,
    List.map fst (Sem.tr out.2) `prefix_of`
      List.map fst (Flow.fit_log Stub.complete "FluxPointsDataset" "model" "flux_points" "Fit"
                      d f run r) /\
    (out.1 = Sem.Ok tt ->
       Sem.tr out.2 = Flow.fit_log Stub.complete "FluxPointsDataset" "model" "flux_points" "Fit"
                        d f run r) /\
    (out.1 = Sem.Ok tt ->
       Sem.ns out.2 =
         <["result_pwl" := r]> (<["fitter" := f]> (<["dataset_pwl" := d]> Flow.before_fit))).
Proof.
  apply (run_fit_flow string string nat Stub.complete Flow.before_fit 0
           "dataset_pwl" "result_pwl" "FluxPointsDataset" "model" "flux_points" "Fit");
    [discriminate | vm_compute; reflexivity ..].
Defined.

(** ** The script phase and the phases around it *)

Module BuildPhases.

Import Travis Lifecycle.

Lemma getenv_true_body (j : job) (x : string) (body : list string) :
  getenv j x = Some "true" -> run_line j (IfVar x body) = body.
Proof. intros H. unfold run_line. rewrite H. reflexivity. Qed.

Lemma run_line_decided (j : job) (x : string) (body : list string) :
  condition_of (getenv j x) <> Undecided ->
  (condition_of (getenv j x) = Holds /\ run_line j (IfVar x body) = body) \/
  (condition_of (getenv j x) = Fails /\ run_line j (IfVar x body) = []).
Proof.
  intros Hd. unfold run_line.
  destruct (condition_of (getenv j x)); [left | right | contradiction]; split; reflexivity.
Qed.

(** X13: in every job that sets [RUN_INSTALL] to true the package is
    installed just before the job's command, which is the last command of
    the script; where the test data are fetched as well, the package is
    installed twice. *)
Theorem install_before_cmd (j : job) (c : string) :
  getenv j "RUN_INSTALL" = Some "true" ->
  getenv j "CMD" = Some c ->
  (exists pre, run_script j = pre ++ [pip_install; c]) /\
  (getenv j "FETCH_GAMMAPY_DATA" = Some "true" ->
     run_script j = download ++ [pip_install; c]).
Proof.
  intros Hi Hc.
  assert (Hs : run_script j =
    run_line j (IfVar "FETCH_GAMMAPY_DATA" download) ++ [pip_install; c]).
  { unfold run_script, script. cbn [flat_map].
    rewrite (getenv_true_body j "RUN_INSTALL" _ Hi).
    unfold run_line at 2. rewrite Hc. rewrite app_nil_r. reflexivity. }
  split.
  - eexists. exact Hs.
  - intros Hf. rewrite Hs, (getenv_true_body j _ _ Hf). reflexivity.
Qed.

Lemma install_before_cmd_main_test :
  (exists pre, run_script main_test = pre ++ [pip_install; "make test-cov"]) /\
  (getenv main_test "FETCH_GAMMAPY_DATA" = Some "true" ->
     run_script main_test = download ++ [pip_install; "make test-cov"]).
Proof.
  apply (install_before_cmd main_test "make test-cov"); reflexivity.
Defined.

(** X14: the test data are downloaded, and [GAMMAPY_DATA] is set, exactly
    in the jobs where the shell takes [$FETCH_GAMMAPY_DATA] to hold, which
    it does for [true] and also for an empty or unset value: there the
    script starts with the three commands of the download.  Where the
    value is [false] the script is the rest alone, at most the installation
    and the job's command.  Both switches must be values the shell
    decides. *)
Theorem data_fetched_iff (j : job) :
  condition_of (getenv j "FETCH_GAMMAPY_DATA") <> Undecided ->
  condition_of (getenv j "RUN_INSTALL") <> Undecided ->
  let rest := run_line j (IfVar "RUN_INSTALL" [pip_install]) ++ script_cmd j in
  length rest <= 2 /\
  ((condition_of (getenv j "FETCH_GAMMAPY_DATA") = Holds /\ run_script j = download ++ rest) \/
   (condition_of (getenv j "FETCH_GAMMAPY_DATA") = Fails /\ run_script j = rest)).
Proof.
  intros Hf Hi rest. split.
  - unfold rest. rewrite length_app.
    assert (H1 : length (run_line j (IfVar "RUN_INSTALL" [pip_install])) <= 1).
    { destruct (run_line_decided j "RUN_INSTALL" [pip_install] Hi) as [[_ ->]|[_ ->]];
        simpl; lia. }
    assert (H2 : length (script_cmd j) <= 1).
    { unfold script_cmd, run_line. destruct (getenv j "CMD"); simpl; lia. }
    lia.
  - assert (Hs : run_script j = run_line j (IfVar "FETCH_GAMMAPY_DATA" download) ++ rest).
    { unfold run_script, script, rest, script_cmd. cbn [flat_map].
      rewrite app_nil_r. reflexivity. }
    destruct (run_line_decided j "FETCH_GAMMAPY_DATA" download Hf) as [[Hc Hl]|[Hc Hl]];
      rewrite Hl in Hs; [left | right]; split; assumption.
Qed.

Lemma data_fetched_iff_no_gammapy_data :
  let rest := run_line no_gammapy_data (IfVar "RUN_INSTALL" [pip_install]) ++
              script_cmd no_gammapy_data in
  length rest <= 2 /\
  ((condition_of (getenv no_gammapy_data "FETCH_GAMMAPY_DATA") = Holds /\
    run_script no_gammapy_data = download ++ rest) \/
   (condition_of (getenv no_gammapy_data "FETCH_GAMMAPY_DATA") = Fails /\
    run_script no_gammapy_data = rest)).
Proof.
  apply (data_fetched_iff no_gammapy_data); vm_compute; discriminate.
Defined.

(** X15: in each of the ten jobs of the matrix the optional steps run where
    they are meant to: [codecov] is run exactly by the job whose command is
    [make test-cov], conda-build is installed exactly by the job whose
    command is [python setup.py bdist_conda], and the X server is started
    exactly by the jobs on linux, all but the macOS one. *)
Theorem optional_steps_match :
  Forall (fun j => steps_match j = true) matrix_include /\
  filter (fun j => runs j "codecov -X gcov") matrix_include = [main_test] /\
  filter (fun j => runs j "conda install -n root conda-build astropy Cython click regions pydantic")
         matrix_include = [conda_build] /\
  filter (fun j => negb (runs j "sh -e /etc/init.d/xvfb start")) matrix_include = [macos_tests].
Proof.
  split; [|split; [|split]].
  - unfold matrix_include. repeat constructor; vm_compute; reflexivity.
  - vm_compute; reflexivity.
  - vm_compute; reflexivity.
  - vm_compute; reflexivity.
Qed.

End BuildPhases.

(** ** The development environment and the packages of the build jobs *)

(** X16: the development environment lists every package that the default
    conda and pip dependencies of the build name, package names compared
    without letter case: for a job that overrides neither list and does not
    test the packaging, the configuration names no package the environment
    lacks.  Of the ten jobs of the matrix, five are given a package that is
    not listed: [codecov] in the main test, [pygments] in the docs and the
    notebooks jobs, [conda-build] in the conda build job, and the
    development version of sherpa, taken from its repository. *)
Theorem environment_covers_jobs :
  (forall j : Travis.job,
     Travis.lookup_env "CONDA_DEPENDENCIES" (Travis.env j) = None ->
     Travis.lookup_env "PIP_DEPENDENCIES" (Travis.env j) = None ->
     Travis.condition_of (Travis.getenv j "TEST_PACKAGING") = Travis.Fails ->
     Environment.missing j = []) /\
  List.map Environment.missing Travis.matrix_include =
    [ ["codecov"]; []; []; []; ["pygments"]; ["conda-build"]; [];
      ["git+http://github.com/sherpa/sherpa.git#egg=sherpa"]; ["pygments"]; [] ].
Proof.
  split.
  - intros j Hc Hp Ht.
    assert (Hi : Environment.installed_by_phase j = []).
    { unfold Environment.installed_by_phase, Lifecycle.run_phase, Lifecycle.install.
      cbn [flat_map Lifecycle.run_phase_line Travis.run_line]. rewrite Ht.
      cbn [app flat_map]. rewrite app_nil_r.
      destruct (String.eqb (Lifecycle.os_name j) "linux"); vm_compute; reflexivity. }
    unfold Environment.missing, Environment.requirements. rewrite Hi, app_nil_r.
    unfold Environment.variable, Travis.getenv.
    rewrite Hc, Hp. vm_compute. reflexivity.
  - vm_compute. reflexivity.
Qed.

Lemma environment_covers_jobs_no_gammapy_data :
  Travis.lookup_env "CONDA_DEPENDENCIES" (Travis.env Travis.no_gammapy_data) = None /\
  Travis.lookup_env "PIP_DEPENDENCIES" (Travis.env Travis.no_gammapy_data) = None /\
  Travis.condition_of (Travis.getenv Travis.no_gammapy_data "TEST_PACKAGING") = Travis.Fails /\
  Environment.missing Travis.no_gammapy_data = [].
Proof.
  split; [reflexivity|]. split; [reflexivity|]. split; [vm_compute; reflexivity|].
  apply (proj1 environment_covers_jobs Travis.no_gammapy_data);
    vm_compute; reflexivity.
Defined.
